(** * Pulse demodulation (src/pulse_demod.c)

    A shallow embedding of the binary demodulators of [pulse_demod.c]
    (PCM, PPM, PWM, PWM-precise, PWM-ternary and Manchester with a
    hard-coded zero bit) together with the properties of their
    specification.

    The C functions read a pulse train, drive a bit buffer and call the
    device's callback at the end of a message.  The embedding threads an
    explicit decoder state through the loop body; every call the C code
    makes to a collaborator (bit buffer, callback, stderr) is also
    recorded, in program order, in a trace.

    Durations are [unsigned] and limits are [int]; both are integers of
    [Z] with the conversions and the wrap-around of 32-bit arithmetic
    written out where the C code converts or adds. *)

From Stdlib Require Import String ZArith List Bool Lia.
Import ListNotations.
Open Scope Z_scope.

(** ** C integer conversions *)

Module CInt.

(** [(unsigned)x]: the value modulo 2^32. *)
Definition to_unsigned (z : Z) : Z := z mod 2 ^ 32.

(** Conversion of a 32-bit pattern to [int] (two's complement). *)
Definition to_int (z : Z) : Z := (z + 2 ^ 31) mod 2 ^ 32 - 2 ^ 31.

(** [a + b] on [unsigned] operands. *)
Definition uadd (a b : Z) : Z := to_unsigned (a + b).

(** [a - b] on [unsigned] operands. *)
Definition usub (a b : Z) : Z := to_unsigned (a - b).

(** [a / b] on [unsigned] operands (the divisor is not zero). *)
Definition udiv (a b : Z) : Z := a / b.

(** [abs(u - x)] for [u] unsigned and [x] an [int]: the difference is
    taken modulo 2^32 and handed to [abs] as an [int]. *)
Definition abs_diff (u x : Z) : Z :=
  Z.abs (to_int (usub u (to_unsigned x))).

(** Modelled from the spec: the macro [min(a,b)] of util.h, which is not
    part of pulse_demod.c; the smaller of its two arguments. *)
Definition min (a b : Z) : Z := if a <? b then a else b.

End CInt.

(** ** The bit buffer (bitbuffer.h) *)

Module Bitbuffer.

Definition bitrow := list bool.

(** Modelled from the spec: the bit buffer of bitbuffer.h, whose source is
    not part of pulse_demod.c.  An ordered sequence of rows, each an
    ordered sequence of bits; bits are appended to the last row, a new
    row can be started, and clearing discards all rows and leaves one
    empty row. *)
Definition bitbuffer := list bitrow.

(** Modelled from the spec: the bit buffer a demodulator starts from,
    [bitbuffer_t bits = {0}], holds one empty row. *)
Definition empty : bitbuffer := [[]].

(** Modelled from the spec: [bitbuffer_add_bit], append one bit to the
    current (last) row. *)
Fixpoint add_bit (bits : bitbuffer) (b : bool) : bitbuffer :=
  match bits with
  | [] => [[b]]
  | [r] => [r ++ [b]]
  | r :: rest => r :: add_bit rest b
  end.

(** Modelled from the spec: [bitbuffer_add_row], start a new row. *)
Definition add_row (bits : bitbuffer) : bitbuffer := bits ++ [[]].

(** Modelled from the spec: [bitbuffer_clear], discard all rows and
    reset to one empty row. *)
Definition clear (bits : bitbuffer) : bitbuffer := empty.

(** Modelled from the spec: the field [bits_per_row[i]], the number of
    bits that row [i] holds. *)
Definition bits_per_row (bits : bitbuffer) (i : nat) : Z :=
  Z.of_nat (List.length (nth i bits [])).

End Bitbuffer.

Import CInt Bitbuffer.

(** ** Pulse data and protocol state *)

(** Modelled from the spec: [pulse_data_t], whose declaration is not
    part of pulse_demod.c.  [num_pulses] and the arrays [pulse] and [gap]
    of [unsigned] durations (the demodulators cast the limits to
    [unsigned] to compare with them).  Reading the arrays is [nth]; the C
    arrays have a fixed capacity that [num_pulses] does not exceed. *)
Record pulse_data := {
  num_pulses : nat;
  pulse : list Z;
  gap : list Z
}.

Definition pulse_at (pulses : pulse_data) (n : nat) : Z := nth n (pulse pulses) 0.
Definition gap_at (pulses : pulse_data) (n : nat) : Z := nth n (gap pulses) 0.

(** A pulse train given as (pulse, gap) pairs. *)
Definition train (l : list (Z * Z)) : pulse_data :=
  {| num_pulses := List.length l; pulse := map fst l; gap := map snd l |}.

(** Modelled from the spec: [struct protocol_state], whose declaration is
    not part of pulse_demod.c; the fields the demodulators read.  The
    limits are [int]s, [demod_arg] an integer wide enough for a pointer,
    [callback] a function pointer that may be null and is taken to return
    a value that depends on the bit buffer only. *)
Record protocol_state := {
  callback : option (bitbuffer -> Z);
  short_limit : Z;
  long_limit : Z;
  reset_limit : Z;
  name : string;
  demod_arg : Z
}.

(** Modelled from the spec: [PWM_Precise_Parameters], the structure
    [demod_arg] points to for the precise PWM demodulator, with [int]
    fields. *)
Record PWM_Precise_Parameters := {
  pulse_tolerance : Z;
  pulse_sync_width : Z
}.

(** ** Decoder state and trace *)

(** The calls a demodulator makes, in program order. *)
Inductive op :=
| OpAddBit (b : bool)              (* bitbuffer_add_bit(&bits, b) *)
| OpAddRow                         (* bitbuffer_add_row(&bits) *)
| OpClear                          (* bitbuffer_clear(&bits) *)
| OpCallback (frame : bitbuffer)   (* device->callback(&bits) *)
| OpPrint (who : string) (frame : bitbuffer)
                                   (* fprintf of the function's name and the
                                      device's, bitbuffer_print(&bits) *)
| OpDebugCleared (n : nat) (p g : Z).
                                   (* the message of line 50 on stderr *)

(** The locals [events] and [bits] of every demodulator.  [events] is an
    [int]; signed overflow being undefined in C, the count is not
    wrapped. *)
Record dstate := {
  events : Z;
  bits : bitbuffer;
  trace : list op
}.

Definition init : dstate := {| events := 0; bits := empty; trace := [] |}.

Definition do_add_bit (b : bool) (s : dstate) : dstate :=
  {| events := events s; bits := add_bit (bits s) b;
     trace := trace s ++ [OpAddBit b] |}.

Definition do_add_row (s : dstate) : dstate :=
  {| events := events s; bits := add_row (bits s);
     trace := trace s ++ [OpAddRow] |}.

Definition do_clear (s : dstate) : dstate :=
  {| events := events s; bits := clear (bits s);
     trace := trace s ++ [OpClear] |}.

Definition do_log (o : op) (s : dstate) : dstate :=
  {| events := events s; bits := bits s; trace := trace s ++ [o] |}.

(** [if (device->callback) events += device->callback(&bits);] *)
Definition do_callback (device : protocol_state) (s : dstate) : dstate :=
  match callback device with
  | Some cb =>
      {| events := events s + cb (bits s); bits := bits s;
         trace := trace s ++ [OpCallback (bits s)] |}
  | None => s
  end.

(** [if (!device->callback || (debug_output && events > 0))] print. *)
Definition do_debug_print (debug_output : Z) (who : string)
    (device : protocol_state) (s : dstate) : dstate :=
  if match callback device with
     | None => true
     | Some _ => negb (debug_output =? 0) && (events s >? 0)
     end
  then do_log (OpPrint who (bits s)) s
  else s.

(** The block every demodulator runs at the end of a message: callback,
    debug print-out, [bitbuffer_clear]. *)
Definition end_of_message (debug_output : Z) (who : string)
    (device : protocol_state) (s : dstate) : dstate :=
  do_clear (do_debug_print debug_output who device (do_callback device s)).

(** [for (unsigned n = 0; n < pulses->num_pulses; ++n) body]. *)
Definition for_pulses {A : Type} (pulses : pulse_data)
    (body : nat -> A -> A) (s : A) : A :=
  fold_left (fun acc n => body n acc) (seq 0 (num_pulses pulses)) s.

(** The state after the first [k] iterations. *)
Definition after_pulses {A : Type} (body : nat -> A -> A) (k : nat) (s : A) : A :=
  fold_left (fun acc n => body n acc) (seq 0 k) s.

(** One iteration of a loop either goes on with a new state or leaves the
    function with a return value. *)
Inductive outcome :=
| Continue (s : dstate)
| Return (ret : Z) (s : dstate).

Section Demodulators.

(** The global [debug_output]. *)
Variable debug_output : Z.
Variable pulses : pulse_data.
Variable device : protocol_state.

(** *** pulse_demod_pcm *)

Definition MAX_ZEROS : Z := Z.quot (reset_limit device) (long_limit device).
Definition TOLERANCE : Z := Z.quot (long_limit device) 4.

Definition pcm_highs (n : nat) : Z :=
  to_int (udiv (uadd (pulse_at pulses n)
                     (to_unsigned (Z.quot (short_limit device) 2)))
               (to_unsigned (short_limit device))).

Definition pcm_periods (n : nat) : Z :=
  to_int (udiv (uadd (uadd (pulse_at pulses n) (gap_at pulses n))
                     (to_unsigned (Z.quot (long_limit device) 2)))
               (to_unsigned (long_limit device))).

(** [for (int i=0; i < k; ++i) bitbuffer_add_bit(&bits, b);] *)
Definition add_run (b : bool) (k : Z) (s : dstate) : dstate :=
  Nat.iter (Z.to_nat k) (do_add_bit b) s.

(** Lines 29-42: the run of ones, then the run of zeros. *)
Definition pcm_emit (n : nat) (s : dstate) : dstate :=
  let highs := pcm_highs n in
  let periods := pcm_periods n in
  let s := add_run true highs s in
  let periods := periods - highs in
  let periods := min periods MAX_ZEROS in
  add_run false periods s.

Definition pcm_corrupt (n : nat) : bool :=
  negb (short_limit device =? long_limit device)
  && (abs_diff (pulse_at pulses n) (short_limit device) >? TOLERANCE).

(** Lines 44-55: validate data. *)
Definition pcm_validate (n : nat) (s : dstate) : dstate :=
  if pcm_corrupt n then
    let s := if debug_output >? 3
             then do_log (OpDebugCleared n (pulse_at pulses n) (gap_at pulses n)) s
             else s in
    do_clear s
  else s.

Definition pcm_end_condition (n : nat) : bool :=
  (n =? num_pulses pulses - 1)%nat
  || (gap_at pulses n >? to_unsigned (reset_limit device)).

(** Lines 57-71: end of message? *)
Definition pcm_end (n : nat) (s : dstate) : dstate :=
  if pcm_end_condition n && (bits_per_row (bits s) 0 >? 0)
  then end_of_message debug_output "pulse_demod_pcm"%string device s
  else s.

Definition pcm_body (n : nat) (s : dstate) : dstate :=
  pcm_end n (pcm_validate n (pcm_emit n s)).

(** The divisions of the function are defined: [long_limit] divides
    before the loop ([INT_MIN / -1] overflows), [short_limit] in every
    iteration. *)
Definition pcm_defined : bool :=
  negb (long_limit device =? 0)
  && negb ((reset_limit device =? - 2 ^ 31) && (long_limit device =? -1))
  && (negb (short_limit device =? 0) || (num_pulses pulses =? 0)%nat).

(** The final state; [None] where the C function divides by zero. *)
Definition pulse_demod_pcm_run : option dstate :=
  if pcm_defined then Some (for_pulses pulses pcm_body init) else None.

Definition pulse_demod_pcm : option Z := option_map events pulse_demod_pcm_run.

(** *** pulse_demod_ppm *)

Definition ppm_body (n : nat) (s : dstate) : dstate :=
  if gap_at pulses n <? to_unsigned (short_limit device) then
    do_add_bit false s
  else if gap_at pulses n <? to_unsigned (long_limit device) then
    do_add_bit true s
  else if gap_at pulses n <? to_unsigned (reset_limit device) then
    do_add_row s
  else
    end_of_message debug_output "pulse_demod_ppm"%string device s.

Definition pulse_demod_ppm_run : dstate := for_pulses pulses ppm_body init.
Definition pulse_demod_ppm : Z := events pulse_demod_ppm_run.

(** *** pulse_demod_pwm *)

(** [int start_bit = device->demod_arg;] *)
Definition start_bit : Z := to_int (demod_arg device).

(** Lines 115-125; the second component is [start_bit_detected]. *)
Definition pwm_pulse (n : nat) (st : dstate * Z) : dstate * Z :=
  let (s, start_bit_detected) := st in
  if (start_bit =? 1) && (start_bit_detected =? 0) then
    (s, 1)
  else if pulse_at pulses n <=? to_unsigned (short_limit device) then
    (do_add_bit true s, start_bit_detected)
  else
    (do_add_bit false s, start_bit_detected).

(** Lines 126-142. *)
Definition pwm_gap (n : nat) (st : dstate * Z) : dstate * Z :=
  let (s, start_bit_detected) := st in
  if gap_at pulses n >? to_unsigned (reset_limit device) then
    (end_of_message debug_output "pulse_demod_pwm"%string device s, 0)
  else if gap_at pulses n >? to_unsigned (long_limit device) then
    (do_add_row s, 0)
  else
    (s, start_bit_detected).

Definition pwm_body (n : nat) (st : dstate * Z) : dstate * Z :=
  pwm_gap n (pwm_pulse n st).

Definition pulse_demod_pwm_run : dstate * Z := for_pulses pulses pwm_body (init, 0).
Definition pulse_demod_pwm : Z := events (fst pulse_demod_pwm_run).

(** *** pulse_demod_pwm_ternary *)

(** [unsigned sync_bit = device->demod_arg;] *)
Definition sync_bit : Z := to_unsigned (demod_arg device).

(** Lines 192-215. *)
Definition ternary_pulse (n : nat) (s : dstate) : dstate :=
  if pulse_at pulses n <? to_unsigned (short_limit device) then
    if sync_bit =? 0 then do_add_row s else do_add_bit false s
  else if pulse_at pulses n <? to_unsigned (long_limit device) then
    if sync_bit =? 0 then do_add_bit false s
    else if sync_bit =? 1 then do_add_row s
    else do_add_bit true s
  else
    if sync_bit =? 2 then do_add_row s else do_add_bit true s.

(** Lines 217-228. *)
Definition ternary_gap (n : nat) (s : dstate) : dstate :=
  if gap_at pulses n >? to_unsigned (reset_limit device)
  then end_of_message debug_output "pulse_demod_pwm_ternary"%string device s
  else s.

Definition ternary_body (n : nat) (s : dstate) : dstate :=
  ternary_gap n (ternary_pulse n s).

Definition pulse_demod_pwm_ternary_run : dstate := for_pulses pulses ternary_body init.
Definition pulse_demod_pwm_ternary : Z := events pulse_demod_pwm_ternary_run.

(** *** pulse_demod_manchester_zerobit *)

(** [(unsigned)(device->short_limit + (device->short_limit>>1))] *)
Definition manchester_threshold : Z :=
  to_unsigned (short_limit device + Z.shiftr (short_limit device) 1).

(** Lines 243-251, "Falling edge is on end of pulse"; the second
    component is [time_since_last]. *)
Definition manchester_falling_edge (n : nat) (st : dstate * Z) : dstate * Z :=
  let (s, time_since_last) := st in
  if uadd (pulse_at pulses n) time_since_last >? manchester_threshold then
    (do_add_bit true s, 0)
  else
    (s, uadd time_since_last (pulse_at pulses n)).

(** Lines 253-275: end of message, else "Rising edge is on end of
    gap". *)
Definition manchester_rising_edge (n : nat) (st : dstate * Z) : dstate * Z :=
  let (s, time_since_last) := st in
  if gap_at pulses n >? to_unsigned (reset_limit device) then
    (do_add_bit false
       (end_of_message debug_output "pulse_demod_manchester_zerobit"%string device s), 0)
  else if uadd (gap_at pulses n) time_since_last >? manchester_threshold then
    (do_add_bit false s, 0)
  else
    (s, uadd time_since_last (gap_at pulses n)).

Definition manchester_body (n : nat) (st : dstate * Z) : dstate * Z :=
  manchester_rising_edge n (manchester_falling_edge n st).

(** Line 240: the first rising edge is always counted as a zero. *)
Definition manchester_init : dstate * Z := (do_add_bit false init, 0).

Definition pulse_demod_manchester_zerobit_run : dstate * Z :=
  for_pulses pulses manchester_body manchester_init.
Definition pulse_demod_manchester_zerobit : Z :=
  events (fst pulse_demod_manchester_zerobit_run).

(** *** pulse_demod_pwm_precise *)

(** The structure [p] that [device->demod_arg] is cast to and points to. *)
Variable p : PWM_Precise_Parameters.

(** Lines 155-166. *)
Definition precise_pulse (n : nat) (s : dstate) : outcome :=
  if abs_diff (pulse_at pulses n) (short_limit device) <? pulse_tolerance p then
    Continue (do_add_bit true s)
  else if abs_diff (pulse_at pulses n) (long_limit device) <? pulse_tolerance p then
    Continue (do_add_bit false s)
  else if negb (pulse_sync_width p =? 0)
          && (abs_diff (pulse_at pulses n) (pulse_sync_width p) <? pulse_tolerance p) then
    Continue (do_add_row s)
  else
    Return 0 s.

(** Lines 168-179. *)
Definition precise_gap (n : nat) (s : dstate) : dstate :=
  if gap_at pulses n >? to_unsigned (reset_limit device)
  then end_of_message debug_output "pulse_demod_pwm_precise"%string device s
  else s.

Definition precise_body (n : nat) (s : dstate) : outcome :=
  match precise_pulse n s with
  | Continue s' => Continue (precise_gap n s')
  | Return r s' => Return r s'
  end.

(** The loop over the indices [ns], left at the first [Return]. *)
Fixpoint precise_loop (ns : list nat) (s : dstate) : outcome :=
  match ns with
  | [] => Continue s
  | n :: ns' =>
      match precise_body n s with
      | Continue s' => precise_loop ns' s'
      | Return r s' => Return r s'
      end
  end.

Definition pulse_demod_pwm_precise_run : outcome :=
  precise_loop (seq 0 (num_pulses pulses)) init.

(** The value the function returns: [events] after the loop, or the
    value of the [return] inside it. *)
Definition pulse_demod_pwm_precise : Z :=
  match pulse_demod_pwm_precise_run with
  | Continue s => events s
  | Return r _ => r
  end.

(** The trace of the call, whichever way it ends. *)
Definition outcome_state (o : outcome) : dstate :=
  match o with Continue s => s | Return _ s => s end.

End Demodulators.

(** ** Reading a trace *)

(** The frames handed to the callback, in order. *)
Fixpoint callback_frames (t : list op) : list bitbuffer :=
  match t with
  | [] => []
  | OpCallback f :: t' => f :: callback_frames t'
  | _ :: t' => callback_frames t'
  end.

(** The sum of the callback's return values over the frames of a trace. *)
Definition callback_sum (cb : bitbuffer -> Z) (t : list op) : Z :=
  fold_right Z.add 0 (map cb (callback_frames t)).

(** The bits added to the bit buffer, in order. *)
Fixpoint added_bits (t : list op) : list bool :=
  match t with
  | [] => []
  | OpAddBit b :: t' => b :: added_bits t'
  | _ :: t' => added_bits t'
  end.

Definition is_callback (o : op) : bool :=
  match o with OpCallback _ => true | _ => false end.

(** [s'] is [s] after a reported message: the callback [cb] was called on
    the bits of [s], the optional debug print-out happened, and the bit
    buffer was cleared. *)
Definition reported (cb : bitbuffer -> Z) (who : string) (s s' : dstate) : Prop :=
  events s' = events s + cb (bits s)
  /\ bits s' = empty
  /\ (trace s' = trace s ++ [OpCallback (bits s); OpClear]
      \/ trace s' = trace s ++ [OpCallback (bits s); OpPrint who (bits s); OpClear]).

(** The events counted so far are the callback's return values. *)
Definition accounted (cb : bitbuffer -> Z) (s : dstate) : Prop :=
  events s = callback_sum cb (trace s).

(** Limits that are non-negative [int]s. *)
Definition limit_ok (z : Z) : Prop := 0 <= z < 2 ^ 31.

(** A pulse of [x] samples lies outside the tolerance band around [ref]. *)
Definition outside_band (tol x ref : Z) : Prop := tol <= Z.abs (x - ref).

(** A pulse of [x] samples matches none of the bands of the precise PWM
    demodulator: not the short one, not the long one, and not the sync one
    (or no sync width is configured). *)
Definition timing_violation (device : protocol_state)
    (p : PWM_Precise_Parameters) (x : Z) : Prop :=
  outside_band (pulse_tolerance p) x (short_limit device)
  /\ outside_band (pulse_tolerance p) x (long_limit device)
  /\ (pulse_sync_width p = 0
      \/ outside_band (pulse_tolerance p) x (pulse_sync_width p)).

(** The gap after pulse [n] ends a frame of the PWM demodulator: an end of
    message (line 127) or a new row (line 139). *)
Definition pwm_boundary (pulses : pulse_data) (device : protocol_state)
    (n : nat) : bool :=
  (gap_at pulses n >? to_unsigned (reset_limit device))
  || (gap_at pulses n >? to_unsigned (long_limit device)).

(** Pulse [n] is the first pulse of a frame: the first of the call, or
    the one after a gap that ends a frame. *)
Definition pwm_first_of_frame (pulses : pulse_data) (device : protocol_state)
    (n : nat) : bool :=
  match n with
  | O => true
  | S m => pwm_boundary pulses device m
  end.

(** The first row of a bit buffer begins with bit 0. *)
Definition starts_with_zero (b : bitbuffer) : bool :=
  match b with
  | (false :: _) :: _ => true
  | _ => false
  end.

(** Every [bitbuffer_clear] of a trace is directly followed by
    [bitbuffer_add_bit(&bits, 0)]. *)
Fixpoint clear_then_zero (t : list op) : bool :=
  match t with
  | [] => true
  | OpClear :: t' =>
      match t' with
      | OpAddBit false :: _ => clear_then_zero t'
      | _ => false
      end
  | _ :: t' => clear_then_zero t'
  end.

(** What holds of the Manchester demodulator between its steps: the bit
    buffer begins with bit 0, so did every frame handed to the callback,
    and every clear was followed by the hard-coded zero. *)
Definition manchester_inv (s : dstate) : Prop :=
  starts_with_zero (bits s) = true
  /\ forallb starts_with_zero (callback_frames (trace s)) = true
  /\ clear_then_zero (trace s) = true.

(** ** Configurations used in the examples *)

(** A callback that reports one message for every frame. *)
Definition one_per_frame : bitbuffer -> Z := fun _ => 1.

(** Limits 10 / 20 / 30 with a registered callback. *)
Definition dev_10_20_30 (arg : Z) : protocol_state :=
  {| callback := Some one_per_frame; short_limit := 10; long_limit := 20;
     reset_limit := 30; name := "example"%string; demod_arg := arg |}.

(** Limits out of order: the reset limit 15 lies below the long limit 20. *)
Definition dev_10_20_15 : protocol_state :=
  {| callback := Some one_per_frame; short_limit := 10; long_limit := 20;
     reset_limit := 15; name := "example"%string; demod_arg := 0 |}.

(** Tolerance 3, no sync pulse. *)
Definition precise_3 : PWM_Precise_Parameters :=
  {| pulse_tolerance := 3; pulse_sync_width := 0 |}.

(** ** Further readings of a run *)

(** A call that decoding depends on: not a print-out on stderr. *)
Definition quiet (o : op) : bool :=
  match o with
  | OpPrint _ _ | OpDebugCleared _ _ _ => false
  | _ => true
  end.

(** Two states that differ in their print-outs only. *)
Definition same_decoding (s1 s2 : dstate) : Prop :=
  events s1 = events s2
  /\ bits s1 = bits s2
  /\ filter quiet (trace s1) = filter quiet (trace s2).

(** Two outcomes that differ in their print-outs only. *)
Definition same_outcome (o1 o2 : outcome) : Prop :=
  match o1, o2 with
  | Continue a, Continue b => same_decoding a b
  | Return r1 a, Return r2 b => r1 = r2 /\ same_decoding a b
  | _, _ => False
  end.

(** The bits of the frames handed to the callback, row after row and
    frame after frame. *)
Definition delivered_bits (t : list op) : list bool :=
  concat (map (@concat bool) (callback_frames t)).

(** The bits the bit buffer holds, row after row. *)
Definition pending_bits (s : dstate) : list bool := concat (bits s).

(** No bit went missing: the bits handed to the callback so far, followed
    by the bits the bit buffer holds, are the bits that were added. *)
Definition nothing_lost (s : dstate) : Prop :=
  delivered_bits (trace s) ++ pending_bits s = added_bits (trace s).

(** The trace of [s] goes on from the trace [t]. *)
Definition extends (t : list op) (s : dstate) : Prop :=
  exists ops, trace s = t ++ ops.

(** The bit, if any, that gap [n] adds in the PPM demodulator (lines
    83-87). *)
Definition ppm_bits (pulses : pulse_data) (device : protocol_state)
    (n : nat) : list bool :=
  if gap_at pulses n <? to_unsigned (short_limit device) then [false]
  else if gap_at pulses n <? to_unsigned (long_limit device) then [true]
  else [].

(** The bit of pulse [n] in the PWM demodulator (line 120). *)
Definition pwm_bit (pulses : pulse_data) (device : protocol_state)
    (n : nat) : bool :=
  pulse_at pulses n <=? to_unsigned (short_limit device).

(** Pulse [n] is taken as the start bit by the PWM demodulator: start bits
    are enabled and the pulse is the first of its frame. *)
Definition pwm_skipped (pulses : pulse_data) (device : protocol_state)
    (n : nat) : bool :=
  (start_bit device =? 1) && pwm_first_of_frame pulses device n.

(** A bit buffer of exactly one row, which holds at least one bit. *)
Definition one_nonempty_row (f : bitbuffer) : bool :=
  match f with
  | [_ :: _] => true
  | _ => false
  end.

(** Limits 10 / 20 / 30 and no callback. *)
Definition dev_silent : protocol_state :=
  {| callback := None; short_limit := 10; long_limit := 20;
     reset_limit := 30; name := "silent"%string; demod_arg := 0 |}.

(** A callback that reports the number of rows of the frame. *)
Definition rows_of_frame : bitbuffer -> Z := fun f => Z.of_nat (List.length f).

(** ** Integer conversions on values in range *)

Lemma to_unsigned_small z : 0 <= z < 2 ^ 32 -> to_unsigned z = z.
Proof. intros H. unfold to_unsigned. apply Z.mod_small. exact H. Qed.

Lemma to_unsigned_limit z : limit_ok z -> to_unsigned z = z.
Proof. unfold limit_ok. intros H. apply to_unsigned_small. lia. Qed.

Lemma limit_ok_intro z : (0 <=? z) && (z <? 2 ^ 31) = true -> limit_ok z.
Proof.
  intros H. apply andb_prop in H. destruct H as [H1 H2].
  apply Z.leb_le in H1. apply Z.ltb_lt in H2. split; assumption.
Qed.

Lemma to_int_small z : - 2 ^ 31 <= z < 2 ^ 31 -> to_int z = z.
Proof.
  intros H. unfold to_int. rewrite Z.mod_small by lia. lia.
Qed.

Lemma to_int_to_unsigned z : to_int (to_unsigned z) = to_int z.
Proof.
  unfold to_int, to_unsigned.
  rewrite Zplus_mod_idemp_l. reflexivity.
Qed.

Lemma abs_diff_exact u x :
  - 2 ^ 31 <= u - x < 2 ^ 31 -> abs_diff u x = Z.abs (u - x).
Proof.
  intros H. unfold abs_diff, usub.
  rewrite to_int_to_unsigned.
  assert (E : to_int (u - to_unsigned x) = to_int (u - x)).
  { unfold to_int, to_unsigned. f_equal.
    replace (u - x mod 2 ^ 32 + 2 ^ 31) with (u + 2 ^ 31 - x mod 2 ^ 32) by lia.
    rewrite Zminus_mod_idemp_r. f_equal. lia. }
  rewrite E, to_int_small by exact H. reflexivity.
Qed.

Lemma min_spec a b : min a b = Z.min a b.
Proof. unfold min. destruct (Z.ltb_spec a b); lia. Qed.

(** ** The loop *)

Lemma after_pulses_S {A : Type} (body : nat -> A -> A) k s :
  after_pulses body (S k) s = body k (after_pulses body k s).
Proof.
  unfold after_pulses. rewrite seq_S, fold_left_app. reflexivity.
Qed.

Lemma for_pulses_after {A : Type} pulses (body : nat -> A -> A) s :
  for_pulses pulses body s = after_pulses body (num_pulses pulses) s.
Proof. reflexivity. Qed.

(** Iteration [n] of the loop starts from the state after [n] iterations. *)
Lemma for_pulses_from {A : Type} pulses (body : nat -> A -> A) s n :
  (n <= num_pulses pulses)%nat ->
  for_pulses pulses body s
  = fold_left (fun acc m => body m acc) (seq n (num_pulses pulses - n))
      (after_pulses body n s).
Proof.
  intros Hn. unfold for_pulses, after_pulses.
  rewrite <- fold_left_app, <- seq_app. f_equal. f_equal. lia.
Qed.

Lemma after_pulses_invariant {A : Type} (P : A -> Prop) (body : nat -> A -> A) s :
  (forall n x, P x -> P (body n x)) -> P s -> forall k, P (after_pulses body k s).
Proof.
  intros Hstep Hinit k. induction k as [|k IH].
  - exact Hinit.
  - rewrite after_pulses_S. apply Hstep, IH.
Qed.

(** ** Traces of the elementary steps *)

Lemma callback_frames_app t u :
  callback_frames (t ++ u) = callback_frames t ++ callback_frames u.
Proof.
  induction t as [|o t IH]; [reflexivity|].
  destruct o; simpl; rewrite IH; reflexivity.
Qed.

Lemma callback_sum_app cb t u :
  callback_sum cb (t ++ u) = callback_sum cb t + callback_sum cb u.
Proof.
  unfold callback_sum. rewrite callback_frames_app, map_app.
  induction (map cb (callback_frames t)) as [|z l IH]; simpl; lia.
Qed.

Lemma accounted_add_bit cb b s : accounted cb s -> accounted cb (do_add_bit b s).
Proof.
  unfold accounted, do_add_bit. simpl. intros H.
  rewrite callback_sum_app, H. unfold callback_sum. simpl. lia.
Qed.

Lemma accounted_add_row cb s : accounted cb s -> accounted cb (do_add_row s).
Proof.
  unfold accounted, do_add_row. simpl. intros H.
  rewrite callback_sum_app, H. unfold callback_sum. simpl. lia.
Qed.

Lemma accounted_clear cb s : accounted cb s -> accounted cb (do_clear s).
Proof.
  unfold accounted, do_clear. simpl. intros H.
  rewrite callback_sum_app, H. unfold callback_sum. simpl. lia.
Qed.

Lemma accounted_log cb o s :
  is_callback o = false -> accounted cb s -> accounted cb (do_log o s).
Proof.
  unfold accounted, do_log. simpl. intros Ho H.
  rewrite callback_sum_app, H. unfold callback_sum.
  destruct o; simpl; try lia. discriminate Ho.
Qed.

Lemma accounted_callback device cb s :
  callback device = Some cb -> accounted cb s -> accounted cb (do_callback device s).
Proof.
  unfold accounted, do_callback. intros -> H. simpl.
  rewrite callback_sum_app, H. unfold callback_sum. simpl. lia.
Qed.

Lemma accounted_debug_print dbg who device cb s :
  accounted cb s -> accounted cb (do_debug_print dbg who device s).
Proof.
  intros H. unfold do_debug_print.
  destruct (match callback device with None => true | Some _ => _ end).
  - apply accounted_log; [reflexivity | exact H].
  - exact H.
Qed.

Lemma accounted_end_of_message dbg who device cb s :
  callback device = Some cb ->
  accounted cb s -> accounted cb (end_of_message dbg who device s).
Proof.
  intros Hcb H. unfold end_of_message.
  apply accounted_clear, accounted_debug_print, accounted_callback; assumption.
Qed.

Lemma accounted_add_run cb b k s : accounted cb s -> accounted cb (add_run b k s).
Proof.
  intros H. unfold add_run. induction (Z.to_nat k) as [|m IH]; simpl.
  - exact H.
  - apply accounted_add_bit, IH.
Qed.

Create HintDb accounted.

#[local] Hint Resolve accounted_add_bit accounted_add_row accounted_clear
  accounted_end_of_message accounted_add_run : accounted.

(** ** The event count *)

(** Case analysis on every test of a loop body. *)
Ltac case_tests :=
  repeat match goal with
         | |- context [if ?c then _ else _] => destruct c
         end.

Section EventCount.

Variable debug_output : Z.
Variable pulses : pulse_data.
Variable device : protocol_state.
Variable cb : bitbuffer -> Z.
Hypothesis Hcb : callback device = Some cb.

Lemma accounted_init : accounted cb init.
Proof. reflexivity. Qed.

Lemma accounted_pcm_body n s :
  accounted cb s -> accounted cb (pcm_body debug_output pulses device n s).
Proof.
  intros H. unfold pcm_body, pcm_end, pcm_validate, pcm_emit.
  set (s1 := add_run false _ (add_run true _ s)).
  assert (H1 : accounted cb s1) by (subst s1; auto with accounted).
  clearbody s1.
  set (s2 := if pcm_corrupt pulses device n then _ else s1).
  assert (H2 : accounted cb s2).
  { subst s2. destruct (pcm_corrupt pulses device n); [|exact H1].
    apply accounted_clear. destruct (debug_output >? 3); [|exact H1].
    apply accounted_log; [reflexivity | exact H1]. }
  clearbody s2.
  destruct (_ && _); auto with accounted.
Qed.

Lemma accounted_ppm_body n s :
  accounted cb s -> accounted cb (ppm_body debug_output pulses device n s).
Proof.
  intros H. unfold ppm_body.
  case_tests;
    auto with accounted.
Qed.

Lemma accounted_pwm_body n st :
  accounted cb (fst st) -> accounted cb (fst (pwm_body debug_output pulses device n st)).
Proof.
  destruct st as [s d]. simpl. intros H. unfold pwm_body, pwm_gap, pwm_pulse.
  case_tests;
    simpl; auto with accounted.
Qed.

Lemma accounted_ternary_body n s :
  accounted cb s -> accounted cb (ternary_body debug_output pulses device n s).
Proof.
  intros H. unfold ternary_body, ternary_gap, ternary_pulse.
  case_tests;
    auto with accounted.
Qed.

Lemma accounted_manchester_body n st :
  accounted cb (fst st) ->
  accounted cb (fst (manchester_body debug_output pulses device n st)).
Proof.
  destruct st as [s t]. simpl. intros H.
  unfold manchester_body, manchester_rising_edge, manchester_falling_edge.
  case_tests;
    simpl; auto with accounted.
Qed.

Lemma accounted_precise_body p n s :
  accounted cb s ->
  accounted cb (outcome_state (precise_body debug_output pulses device p n s)).
Proof.
  intros H. unfold precise_body, precise_pulse, precise_gap.
  case_tests;
    simpl; auto with accounted.
Qed.

Lemma accounted_precise_loop p ns : forall s,
  accounted cb s ->
  accounted cb (outcome_state (precise_loop debug_output pulses device p ns s)).
Proof.
  induction ns as [|n ns IH]; intros s H; simpl.
  - exact H.
  - pose proof (accounted_precise_body p n s H) as Hb.
    destruct (precise_body debug_output pulses device p n s) as [s'|r s']; simpl in *.
    + apply IH, Hb.
    + exact Hb.
Qed.

Lemma precise_loop_returns_zero p ns : forall s r s',
  precise_loop debug_output pulses device p ns s = Return r s' -> r = 0.
Proof.
  induction ns as [|n ns IH]; intros s r s' H; simpl in H.
  - discriminate H.
  - destruct (precise_body debug_output pulses device p n s) as [s1|r1 s1] eqn:E.
    + eapply IH, H.
    + inversion H; subst. unfold precise_body, precise_pulse in E.
      repeat match type of E with context [if ?c then _ else _] => destruct c end;
        inversion E; reflexivity.
Qed.

End EventCount.

(** C2 (as amended).  With a registered callback, the integer returned by
    the PCM (where its divisions are defined), PPM, PWM, PWM-ternary and
    Manchester demodulators is the sum of the callback's return values
    over the frames handed to it during the call.  The precise PWM
    demodulator returns that sum when the loop runs to its end; when it
    leaves the loop at a pulse outside its bands it returns 0, and the
    events counted until then are dropped. *)
Theorem event_count_sums_callback_returns
    (debug_output : Z) (pulses : pulse_data) (device : protocol_state)
    (p : PWM_Precise_Parameters) (cb : bitbuffer -> Z) :
  callback device = Some cb ->
  pulse_demod_pcm debug_output pulses device
    = (if pcm_defined pulses device
       then Some (callback_sum cb
                    (trace (for_pulses pulses (pcm_body debug_output pulses device) init)))
       else None)
  /\ pulse_demod_ppm debug_output pulses device
     = callback_sum cb (trace (pulse_demod_ppm_run debug_output pulses device))
  /\ pulse_demod_pwm debug_output pulses device
     = callback_sum cb (trace (fst (pulse_demod_pwm_run debug_output pulses device)))
  /\ pulse_demod_pwm_ternary debug_output pulses device
     = callback_sum cb (trace (pulse_demod_pwm_ternary_run debug_output pulses device))
  /\ pulse_demod_manchester_zerobit debug_output pulses device
     = callback_sum cb
         (trace (fst (pulse_demod_manchester_zerobit_run debug_output pulses device)))
  /\ match pulse_demod_pwm_precise_run debug_output pulses device p with
     | Continue s =>
         pulse_demod_pwm_precise debug_output pulses device p
         = callback_sum cb (trace s)
     | Return _ s =>
         pulse_demod_pwm_precise debug_output pulses device p = 0
         /\ events s = callback_sum cb (trace s)
     end.
Proof.
  intros Hcb. repeat split.
  - unfold pulse_demod_pcm, pulse_demod_pcm_run.
    destruct (pcm_defined pulses device); [|reflexivity].
    simpl. f_equal. rewrite for_pulses_after.
    apply (after_pulses_invariant (accounted cb)).
    + intros n x. apply accounted_pcm_body. exact Hcb.
    + apply accounted_init.
  - unfold pulse_demod_ppm, pulse_demod_ppm_run. rewrite for_pulses_after.
    apply (after_pulses_invariant (accounted cb)).
    + intros n x. apply accounted_ppm_body. exact Hcb.
    + apply accounted_init.
  - unfold pulse_demod_pwm, pulse_demod_pwm_run. rewrite for_pulses_after.
    apply (after_pulses_invariant (fun st => accounted cb (fst st))).
    + intros n x. apply accounted_pwm_body. exact Hcb.
    + apply accounted_init.
  - unfold pulse_demod_pwm_ternary, pulse_demod_pwm_ternary_run.
    rewrite for_pulses_after.
    apply (after_pulses_invariant (accounted cb)).
    + intros n x. apply accounted_ternary_body. exact Hcb.
    + apply accounted_init.
  - unfold pulse_demod_manchester_zerobit, pulse_demod_manchester_zerobit_run.
    rewrite for_pulses_after.
    apply (after_pulses_invariant (fun st => accounted cb (fst st))).
    + intros n x. apply accounted_manchester_body. exact Hcb.
    + unfold manchester_init. simpl. apply accounted_add_bit, accounted_init.
  - unfold pulse_demod_pwm_precise.
    pose proof (accounted_precise_loop debug_output pulses device cb Hcb p
                  (seq 0 (num_pulses pulses)) init (accounted_init cb)) as Hacc.
    fold (pulse_demod_pwm_precise_run debug_output pulses device p) in Hacc.
    destruct (pulse_demod_pwm_precise_run debug_output pulses device p)
      as [s|r s] eqn:E; simpl in Hacc.
    + exact Hacc.
    + split; [|exact Hacc].
      eapply precise_loop_returns_zero. exact E.
Qed.

(** The event counts of a train with one short pulse and a long silence:
    every demodulator reports the one frame. *)
Lemma event_count_sums_callback_returns_witness :
  pulse_demod_pcm 0 (train [(10, 40)]) (dev_10_20_30 0) = Some 1
  /\ pulse_demod_ppm 0 (train [(10, 5); (10, 40)]) (dev_10_20_30 0) = 1
  /\ pulse_demod_pwm_precise 0 (train [(10, 40)]) (dev_10_20_30 0) precise_3 = 1.
Proof.
  pose proof (event_count_sums_callback_returns 0 (train [(10, 40)])
                (dev_10_20_30 0) precise_3 one_per_frame eq_refl) as H1.
  pose proof (event_count_sums_callback_returns 0 (train [(10, 5); (10, 40)])
                (dev_10_20_30 0) precise_3 one_per_frame eq_refl) as H2.
  destruct H1 as (Hpcm & _ & _ & _ & _ & Hprecise).
  destruct H2 as (_ & Hppm & _).
  split; [|split].
  - rewrite Hpcm. reflexivity.
  - rewrite Hppm. reflexivity.
  - exact Hprecise.
Defined.

(** C2 (as stated) fails for the precise PWM demodulator: a frame is
    reported (the callback returns 1), then a pulse of 50 samples matches
    no band and the call returns 0. *)
Lemma pwm_precise_count_not_sum :
  let run := pulse_demod_pwm_precise_run 0 (train [(10, 40); (50, 5)])
               (dev_10_20_30 0) precise_3 in
  pulse_demod_pwm_precise 0 (train [(10, 40); (50, 5)]) (dev_10_20_30 0) precise_3 = 0
  /\ callback_sum one_per_frame (trace (outcome_state run)) = 1
  /\ pulse_demod_pwm_precise 0 (train [(10, 40); (50, 5)]) (dev_10_20_30 0) precise_3
     <> callback_sum one_per_frame (trace (outcome_state run)).
Proof.
  vm_compute. repeat split; discriminate.
Qed.

(** ** The end of a message *)

Lemma end_of_message_reported dbg who device cb s :
  callback device = Some cb ->
  reported cb who s (end_of_message dbg who device s).
Proof.
  intros Hcb. unfold reported, end_of_message, do_debug_print, do_callback.
  rewrite Hcb. simpl.
  destruct (negb (dbg =? 0) && (events s + cb (bits s) >? 0)); simpl.
  - repeat split. right. rewrite <- !app_assoc. reflexivity.
  - repeat split. left. rewrite <- !app_assoc. reflexivity.
Qed.

Lemma gt_unsigned_limit g l :
  limit_ok l -> l < g -> (g >? to_unsigned l) = true.
Proof.
  intros Hl Hg. rewrite to_unsigned_limit by exact Hl.
  apply Z.gtb_lt. lia.
Qed.

Lemma lt_unsigned_limit_false g l :
  limit_ok l -> l <= g -> (g <? to_unsigned l) = false.
Proof.
  intros Hl Hg. rewrite to_unsigned_limit by exact Hl.
  apply Z.ltb_ge. exact Hg.
Qed.

Lemma lt_unsigned_limit_true g l :
  limit_ok l -> g < l -> (g <? to_unsigned l) = true.
Proof.
  intros Hl Hg. rewrite to_unsigned_limit by exact Hl.
  apply Z.ltb_lt. exact Hg.
Qed.

(** C3 (as amended).  Only the PCM demodulator looks at the first row: at
    its end-of-message condition it calls the callback and clears the bit
    buffer when the first row holds a bit, and does nothing at all when the
    first row is empty.  The PPM, PWM, precise PWM, ternary PWM and
    Manchester demodulators call the callback and clear the bit buffer at
    every end of message, whatever the bit buffer holds, an empty one
    included. *)
Theorem boundary_report_guard
    (debug_output : Z) (pulses : pulse_data) (device : protocol_state)
    (p : PWM_Precise_Parameters) (cb : bitbuffer -> Z)
    (n : nat) (s : dstate) (aux : Z) :
  callback device = Some cb ->
  limit_ok (short_limit device) ->
  limit_ok (long_limit device) ->
  limit_ok (reset_limit device) ->
  (pcm_end_condition pulses device n = true ->
     (bits_per_row (bits s) 0 = 0 ->
        pcm_end debug_output pulses device n s = s)
     /\ (0 < bits_per_row (bits s) 0 ->
        reported cb "pulse_demod_pcm" s (pcm_end debug_output pulses device n s)))
  /\ (short_limit device <= gap_at pulses n ->
      long_limit device <= gap_at pulses n ->
      reset_limit device <= gap_at pulses n ->
      reported cb "pulse_demod_ppm" s (ppm_body debug_output pulses device n s))
  /\ (reset_limit device < gap_at pulses n ->
      reported cb "pulse_demod_pwm" s
        (fst (pwm_gap debug_output pulses device n (s, aux)))
      /\ reported cb "pulse_demod_pwm_precise" s
           (precise_gap debug_output pulses device n s)
      /\ reported cb "pulse_demod_pwm_ternary" s
           (ternary_gap debug_output pulses device n s)
      /\ exists s', reported cb "pulse_demod_manchester_zerobit" s s'
           /\ fst (manchester_rising_edge debug_output pulses device n (s, aux))
              = do_add_bit false s').
Proof.
  intros Hcb Hshort Hlong Hreset. split; [|split].
  - intros Hend. unfold pcm_end. rewrite Hend. simpl. split.
    + intros Hrow. rewrite Hrow. reflexivity.
    + intros Hrow.
      replace (bits_per_row (bits s) 0 >? 0) with true
        by (symmetry; apply Z.gtb_lt; lia).
      apply end_of_message_reported. exact Hcb.
  - intros H1 H2 H3. unfold ppm_body.
    rewrite !lt_unsigned_limit_false by assumption.
    apply end_of_message_reported. exact Hcb.
  - intros Hgap.
    pose proof (gt_unsigned_limit _ _ Hreset Hgap) as Hgt.
    unfold pwm_gap, precise_gap, ternary_gap, manchester_rising_edge.
    rewrite Hgt. simpl. split; [|split; [|split]].
    + apply end_of_message_reported. exact Hcb.
    + apply end_of_message_reported. exact Hcb.
    + apply end_of_message_reported. exact Hcb.
    + eexists. split; [|reflexivity].
      apply end_of_message_reported. exact Hcb.
Qed.

(** The guard at work: the PCM demodulator leaves an empty bit buffer
    alone at the last pulse, the PPM demodulator reports it. *)
Lemma boundary_report_guard_witness :
  pcm_end 0 (train [(10, 40)]) (dev_10_20_30 0) 0%nat init = init
  /\ reported one_per_frame "pulse_demod_ppm" init
       (ppm_body 0 (train [(10, 40)]) (dev_10_20_30 0) 0%nat init).
Proof.
  pose proof limit_ok_intro as Hl.
  destruct (boundary_report_guard 0 (train [(10, 40)]) (dev_10_20_30 0)
              precise_3 one_per_frame 0%nat init 0 eq_refl
              (Hl 10 eq_refl) (Hl 20 eq_refl) (Hl 30 eq_refl))
    as (Hpcm & Hppm & _).
  split.
  - apply (Hpcm eq_refl). reflexivity.
  - apply Hppm; vm_compute; discriminate.
Defined.

(** C3 (as stated) fails for the PPM demodulator: at a gap of 31 samples
    (reset limit 30) the first row is empty, yet the callback is called
    and the bit buffer is cleared. *)
Lemma ppm_reports_empty_sink :
  bits_per_row (bits init) 0 = 0
  /\ trace (pulse_demod_ppm_run 0 (train [(10, 31)]) (dev_10_20_30 0))
     = [OpCallback empty; OpClear]
  /\ pulse_demod_ppm 0 (train [(10, 31)]) (dev_10_20_30 0) = 1.
Proof.
  vm_compute. repeat split.
Qed.

(** ** Reading a train of pairs *)

Lemma pulse_at_train_prefix pre rest n :
  (n < List.length pre)%nat ->
  pulse_at (train (pre ++ rest)) n = pulse_at (train pre) n.
Proof.
  intros H. unfold pulse_at, train. simpl.
  rewrite map_app, app_nth1 by (rewrite length_map; exact H). reflexivity.
Qed.

Lemma gap_at_train_prefix pre rest n :
  (n < List.length pre)%nat ->
  gap_at (train (pre ++ rest)) n = gap_at (train pre) n.
Proof.
  intros H. unfold gap_at, train. simpl.
  rewrite map_app, app_nth1 by (rewrite length_map; exact H). reflexivity.
Qed.

Lemma pulse_at_train_middle pre x g post :
  pulse_at (train (pre ++ (x, g) :: post)) (List.length pre) = x.
Proof.
  unfold pulse_at, train. simpl.
  rewrite map_app, app_nth2 by (rewrite length_map; lia).
  rewrite length_map, Nat.sub_diag. reflexivity.
Qed.

Lemma gap_at_train_middle pre x g post :
  gap_at (train (pre ++ (x, g) :: post)) (List.length pre) = g.
Proof.
  unfold gap_at, train. simpl.
  rewrite map_app, app_nth2 by (rewrite length_map; lia).
  rewrite length_map, Nat.sub_diag. reflexivity.
Qed.

(** ** The precise PWM demodulator leaves at a timing violation *)

Section PreciseAbort.

Variable debug_output : Z.
Variable device : protocol_state.
Variable p : PWM_Precise_Parameters.

Lemma precise_loop_app pulses ns ms s :
  precise_loop debug_output pulses device p (ns ++ ms) s
  = match precise_loop debug_output pulses device p ns s with
    | Continue s' => precise_loop debug_output pulses device p ms s'
    | Return r s' => Return r s'
    end.
Proof.
  revert s. induction ns as [|n ns IH]; intros s; simpl.
  - reflexivity.
  - destruct (precise_body debug_output pulses device p n s); [apply IH | reflexivity].
Qed.

Lemma precise_body_ext pulses1 pulses2 n s :
  pulse_at pulses1 n = pulse_at pulses2 n ->
  gap_at pulses1 n = gap_at pulses2 n ->
  precise_body debug_output pulses1 device p n s
  = precise_body debug_output pulses2 device p n s.
Proof.
  intros Hp Hg. unfold precise_body, precise_pulse, precise_gap.
  rewrite Hp, Hg. reflexivity.
Qed.

Lemma precise_loop_ext pulses1 pulses2 ns :
  (forall n, In n ns ->
     pulse_at pulses1 n = pulse_at pulses2 n /\ gap_at pulses1 n = gap_at pulses2 n) ->
  forall s,
  precise_loop debug_output pulses1 device p ns s
  = precise_loop debug_output pulses2 device p ns s.
Proof.
  induction ns as [|n ns IH]; intros Hsame s; simpl.
  - reflexivity.
  - destruct (Hsame n (or_introl eq_refl)) as [Hp Hg].
    rewrite (precise_body_ext pulses1 pulses2 n s Hp Hg).
    destruct (precise_body debug_output pulses2 device p n s); [|reflexivity].
    apply IH. intros m Hm. apply Hsame. right. exact Hm.
Qed.

Lemma precise_pulse_violation pulses n s :
  limit_ok (short_limit device) ->
  limit_ok (long_limit device) ->
  limit_ok (pulse_sync_width p) ->
  limit_ok (pulse_at pulses n) ->
  timing_violation device p (pulse_at pulses n) ->
  precise_body debug_output pulses device p n s = Return 0 s.
Proof.
  unfold limit_ok, timing_violation, outside_band.
  intros Hs Hl Hy Hx (Vs & Vl & Vy).
  unfold precise_body, precise_pulse.
  rewrite !abs_diff_exact by lia.
  replace (Z.abs (pulse_at pulses n - short_limit device) <? pulse_tolerance p)
    with false by (symmetry; apply Z.ltb_ge; exact Vs).
  replace (Z.abs (pulse_at pulses n - long_limit device) <? pulse_tolerance p)
    with false by (symmetry; apply Z.ltb_ge; exact Vl).
  destruct Vy as [Vy | Vy].
  - rewrite Vy. reflexivity.
  - replace (Z.abs (pulse_at pulses n - pulse_sync_width p) <? pulse_tolerance p)
      with false by (symmetry; apply Z.ltb_ge; exact Vy).
    rewrite andb_false_r. reflexivity.
Qed.

End PreciseAbort.

(** C4.  In the precise PWM demodulator, a pulse train that contains a
    pulse outside the short band, outside the long band and outside the
    sync band (or with no sync width configured) makes the call return 0,
    whatever the callback returned for earlier frames; the call ends at
    such a pulse: its effects are those of the pulses before it, and the
    gap of that pulse and the pulses after it are not looked at. *)
Theorem pwm_precise_aborts_on_violation
    (debug_output : Z) (device : protocol_state) (p : PWM_Precise_Parameters)
    (pre post : list (Z * Z)) (x g : Z) :
  limit_ok (short_limit device) ->
  limit_ok (long_limit device) ->
  limit_ok (pulse_sync_width p) ->
  limit_ok x ->
  timing_violation device p x ->
  pulse_demod_pwm_precise debug_output (train (pre ++ (x, g) :: post)) device p = 0
  /\ pulse_demod_pwm_precise_run debug_output (train (pre ++ (x, g) :: post)) device p
     = Return 0
         (outcome_state (pulse_demod_pwm_precise_run debug_output (train pre) device p)).
Proof.
  intros Hs Hl Hy Hx Hv.
  assert (Hrun :
    pulse_demod_pwm_precise_run debug_output (train (pre ++ (x, g) :: post)) device p
    = Return 0
        (outcome_state (pulse_demod_pwm_precise_run debug_output (train pre) device p))).
  { unfold pulse_demod_pwm_precise_run.
    replace (num_pulses (train (pre ++ (x, g) :: post)))
      with (List.length pre + S (List.length post))%nat
      by (simpl; rewrite length_app; reflexivity).
    rewrite seq_app, precise_loop_app. simpl seq.
    rewrite (precise_loop_ext debug_output device p
               (train (pre ++ (x, g) :: post)) (train pre)).
    2:{ intros n Hn. apply in_seq in Hn. split.
        - apply pulse_at_train_prefix. lia.
        - apply gap_at_train_prefix. lia. }
    change (num_pulses (train pre)) with (List.length pre).
    destruct (precise_loop debug_output (train pre) device p
                (seq 0 (List.length pre)) init) as [s|r s] eqn:E.
    - simpl. rewrite precise_pulse_violation; try assumption.
      + reflexivity.
      + rewrite pulse_at_train_middle. exact Hx.
      + rewrite pulse_at_train_middle. exact Hv.
    - simpl. f_equal. eapply precise_loop_returns_zero. exact E. }
  split; [|exact Hrun].
  unfold pulse_demod_pwm_precise. rewrite Hrun. reflexivity.
Qed.

(** A frame is reported (the callback returns 1), then a pulse of 50
    samples matches no band: the call returns 0 and the pulse after it
    leaves no trace. *)
Lemma pwm_precise_aborts_on_violation_witness :
  pulse_demod_pwm_precise 0 (train ([(10, 40)] ++ (50, 5) :: [(10, 40)]))
    (dev_10_20_30 0) precise_3 = 0
  /\ trace (outcome_state
       (pulse_demod_pwm_precise_run 0 (train ([(10, 40)] ++ (50, 5) :: [(10, 40)]))
          (dev_10_20_30 0) precise_3))
     = [OpAddBit true; OpCallback [[true]]; OpClear].
Proof.
  pose proof limit_ok_intro as Hl.
  assert (Hv : timing_violation (dev_10_20_30 0) precise_3 50).
  { unfold timing_violation, outside_band. simpl. lia. }
  destruct (pwm_precise_aborts_on_violation 0 (dev_10_20_30 0) precise_3
              [(10, 40)] [(10, 40)] 50 5
              (Hl 10 eq_refl) (Hl 20 eq_refl) (Hl 0 eq_refl) (Hl 50 eq_refl) Hv)
    as [Hret Hrun].
  split.
  - exact Hret.
  - rewrite Hrun. reflexivity.
Defined.

(** ** The runs of the PCM demodulator *)

Lemma added_bits_app t u : added_bits (t ++ u) = added_bits t ++ added_bits u.
Proof.
  induction t as [|o t IH]; [reflexivity|].
  destruct o; simpl; rewrite IH; reflexivity.
Qed.

Lemma added_bits_repeat b k : added_bits (repeat (OpAddBit b) k) = repeat b k.
Proof.
  induction k as [|k IH]; simpl; [reflexivity | rewrite IH; reflexivity].
Qed.

Lemma repeat_snoc {A : Type} (a : A) k : repeat a k ++ [a] = a :: repeat a k.
Proof.
  induction k as [|k IH]; simpl; [reflexivity | rewrite IH; reflexivity].
Qed.

Lemma trace_add_run b k s :
  trace (add_run b k s) = trace s ++ repeat (OpAddBit b) (Z.to_nat k).
Proof.
  unfold add_run. induction (Z.to_nat k) as [|m IH]; simpl.
  - rewrite app_nil_r. reflexivity.
  - rewrite IH, <- app_assoc, repeat_snoc. reflexivity.
Qed.

Lemma added_bits_end_of_message dbg who device s :
  added_bits (trace (end_of_message dbg who device s)) = added_bits (trace s).
Proof.
  unfold end_of_message, do_debug_print, do_callback.
  destruct (callback device); simpl.
  - destruct (negb (dbg =? 0) && _); simpl;
      rewrite !added_bits_app; simpl; rewrite !app_nil_r; reflexivity.
  - rewrite !added_bits_app. simpl. rewrite !app_nil_r. reflexivity.
Qed.

Lemma added_bits_pcm_validate dbg pulses device n s :
  added_bits (trace (pcm_validate dbg pulses device n s)) = added_bits (trace s).
Proof.
  unfold pcm_validate. destruct (pcm_corrupt pulses device n); [|reflexivity].
  destruct (dbg >? 3); simpl; rewrite !added_bits_app; simpl;
    rewrite !app_nil_r; reflexivity.
Qed.

Lemma added_bits_pcm_end dbg pulses device n s :
  added_bits (trace (pcm_end dbg pulses device n s)) = added_bits (trace s).
Proof.
  unfold pcm_end. destruct (_ && _); [|reflexivity].
  apply added_bits_end_of_message.
Qed.

Section PcmCounts.

Variable pulses : pulse_data.
Variable device : protocol_state.
Variable n : nat.

Hypothesis Hshort_pos : 0 < short_limit device.
Hypothesis Hshort : limit_ok (short_limit device).
Hypothesis Hlong_pos : 0 < long_limit device.
Hypothesis Hlong : limit_ok (long_limit device).
Hypothesis Hpulse : 0 <= pulse_at pulses n.
Hypothesis Hgap : 0 <= gap_at pulses n.
Hypothesis Hfit :
  pulse_at pulses n + gap_at pulses n + long_limit device / 2 < 2 ^ 31.

Lemma half_limit z : limit_ok z -> Z.quot z 2 = z / 2 /\ 0 <= z / 2 < 2 ^ 30.
Proof.
  unfold limit_ok. intros H. rewrite Z.quot_div_nonneg by lia.
  split; [reflexivity|]. split.
  - apply Z.div_pos; lia.
  - apply Z.div_lt_upper_bound; lia.
Qed.

Lemma pcm_highs_value :
  pcm_highs pulses device n
  = (pulse_at pulses n + short_limit device / 2) / short_limit device.
Proof.
  destruct (half_limit _ Hshort) as [Hq Hh].
  destruct (half_limit _ Hlong) as [_ Hh'].
  unfold limit_ok in *.
  unfold pcm_highs, udiv, uadd. rewrite Hq.
  rewrite (to_unsigned_small (short_limit device / 2)) by lia.
  rewrite (to_unsigned_small (short_limit device)) by lia.
  rewrite to_unsigned_small by lia.
  assert (Hlt : short_limit device / 2 < short_limit device)
    by (apply Z.div_lt; lia).
  apply to_int_small. split.
  - transitivity 0; [lia|]. apply Z.div_pos; lia.
  - apply Z.div_lt_upper_bound; lia.
Qed.

Lemma pcm_periods_value :
  pcm_periods pulses device n
  = (pulse_at pulses n + gap_at pulses n + long_limit device / 2) / long_limit device.
Proof.
  destruct (half_limit _ Hlong) as [Hq Hh].
  unfold limit_ok in *.
  unfold pcm_periods, udiv, uadd. rewrite Hq.
  rewrite (to_unsigned_small (long_limit device / 2)) by lia.
  rewrite (to_unsigned_small (long_limit device)) by lia.
  rewrite (to_unsigned_small (pulse_at pulses n + gap_at pulses n)) by lia.
  rewrite to_unsigned_small by lia.
  apply to_int_small. split.
  - transitivity 0; [lia|]. apply Z.div_pos; lia.
  - apply Z.div_lt_upper_bound; lia.
Qed.

End PcmCounts.

(** C5.  For a pulse/gap pair of the PCM demodulator (positive limits, a
    pulse and a gap that fit an [int]), the bits emitted are
    [highs = (pulse + short_limit/2) / short_limit] ones followed by
    [periods - highs] zeros, where
    [periods = (pulse + gap + long_limit/2) / long_limit] and the number
    of zeros is at most [maxZeros = reset_limit / long_limit] and at
    least zero; the rest of the iteration adds no bit. *)
Theorem pcm_run_lengths
    (debug_output : Z) (pulses : pulse_data) (device : protocol_state)
    (n : nat) (s : dstate) :
  0 < short_limit device -> limit_ok (short_limit device) ->
  0 < long_limit device -> limit_ok (long_limit device) ->
  limit_ok (reset_limit device) ->
  0 <= pulse_at pulses n -> 0 <= gap_at pulses n ->
  pulse_at pulses n + gap_at pulses n + long_limit device / 2 < 2 ^ 31 ->
  let highs := (pulse_at pulses n + short_limit device / 2) / short_limit device in
  let periods :=
    (pulse_at pulses n + gap_at pulses n + long_limit device / 2) / long_limit device in
  let maxZeros := reset_limit device / long_limit device in
  let zeros := Z.max 0 (Z.min (periods - highs) maxZeros) in
  trace (pcm_emit pulses device n s)
    = trace s ++ repeat (OpAddBit true) (Z.to_nat highs)
              ++ repeat (OpAddBit false) (Z.to_nat zeros)
  /\ added_bits (trace (pcm_body debug_output pulses device n s))
     = added_bits (trace s) ++ repeat true (Z.to_nat highs)
                            ++ repeat false (Z.to_nat zeros).
Proof.
  intros Hsp Hs Hlp Hl Hr Hp Hg Hfit highs periods maxZeros zeros.
  assert (Hemit : trace (pcm_emit pulses device n s)
    = trace s ++ repeat (OpAddBit true) (Z.to_nat highs)
              ++ repeat (OpAddBit false) (Z.to_nat zeros)).
  { unfold pcm_emit. rewrite !trace_add_run, <- app_assoc.
    rewrite pcm_highs_value, pcm_periods_value by assumption.
    fold highs periods. unfold MAX_ZEROS.
    rewrite Z.quot_div_nonneg by (unfold limit_ok in *; lia).
    fold maxZeros. rewrite min_spec.
    replace (Z.to_nat zeros) with (Z.to_nat (Z.min (periods - highs) maxZeros))
      by (subst zeros; lia).
    reflexivity. }
  split; [exact Hemit|].
  unfold pcm_body.
  rewrite added_bits_pcm_end, added_bits_pcm_validate, Hemit.
  rewrite !added_bits_app, !added_bits_repeat. reflexivity.
Qed.

(** A pulse of 21 samples and a gap of 100 with limits 10 / 20 / 30: two
    ones, then [min (6 - 2) (30 / 20) = 1] zero. *)
Lemma pcm_run_lengths_witness :
  trace (pcm_emit (train [(21, 100)]) (dev_10_20_30 0) 0%nat init)
  = [OpAddBit true; OpAddBit true; OpAddBit false].
Proof.
  pose proof limit_ok_intro as Hl.
  assert (Hlt : forall a b, (a <? b) = true -> a < b)
    by (intros a b; apply Z.ltb_lt).
  assert (Hle : forall a b, (a <=? b) = true -> a <= b)
    by (intros a b; apply Z.leb_le).
  destruct (pcm_run_lengths 0 (train [(21, 100)]) (dev_10_20_30 0) 0%nat init
              (Hlt 0 10 eq_refl) (Hl 10 eq_refl) (Hlt 0 20 eq_refl) (Hl 20 eq_refl)
              (Hl 30 eq_refl) (Hle 0 21 eq_refl) (Hle 0 100 eq_refl)
              (Hlt (21 + 100 + 20 / 2) (2 ^ 31) eq_refl))
    as [Hemit _].
  rewrite Hemit. reflexivity.
Defined.

(** ** The gaps of the PPM demodulator *)

(** C6 (as amended).  The PPM demodulator classifies a gap by its duration
    alone, trying the limits in order: a gap below [short_limit] emits
    bit 0; a gap from [short_limit] up to [long_limit] emits bit 1; a gap
    that is at least [short_limit] and lies from [long_limit] up to
    [reset_limit] starts a new row and emits no bit; a gap that is at
    least each of the three limits calls the callback and clears the bit
    buffer.  With [short_limit <= long_limit <= reset_limit] these are the
    four bands [< short], [short .. long], [long .. reset] and [>= reset].
    With the limits 10 / 20 / 30 the gaps 9, 11, 21, 31 give the bits 0, 1,
    a new row at the third gap and one callback, at the fourth gap. *)
Theorem ppm_gap_classes
    (debug_output : Z) (pulses : pulse_data) (device : protocol_state)
    (cb : bitbuffer -> Z) (n : nat) (s : dstate) :
  callback device = Some cb ->
  limit_ok (short_limit device) ->
  limit_ok (long_limit device) ->
  limit_ok (reset_limit device) ->
  let g := gap_at pulses n in
  let next := ppm_body debug_output pulses device n s in
  (g < short_limit device -> next = do_add_bit false s)
  /\ (short_limit device <= g < long_limit device -> next = do_add_bit true s)
  /\ (short_limit device <= g -> long_limit device <= g < reset_limit device ->
      next = do_add_row s)
  /\ (short_limit device <= g -> long_limit device <= g -> reset_limit device <= g ->
      reported cb "pulse_demod_ppm" s next)
  /\ (short_limit device <= long_limit device <= reset_limit device ->
      (long_limit device <= g < reset_limit device -> next = do_add_row s)
      /\ (reset_limit device <= g -> reported cb "pulse_demod_ppm" s next))
  /\ (forall dbg p1 p2 p3 p4,
      let body := ppm_body dbg (train [(p1, 9); (p2, 11); (p3, 21); (p4, 31)])
                    (dev_10_20_30 0) in
      bits (after_pulses body 2 init) = [[false; true]]
      /\ bits (after_pulses body 3 init) = [[false; true]; []]
      /\ callback_frames (trace (after_pulses body 3 init)) = []
      /\ callback_frames (trace (after_pulses body 4 init)) = [[[false; true]; []]]
      /\ added_bits (trace (after_pulses body 4 init)) = [false; true]
      /\ bits (after_pulses body 4 init) = empty).
Proof.
  intros Hcb Hs Hl Hr g next.
  assert (B0 : g < short_limit device -> next = do_add_bit false s).
  { intros H. subst next. unfold ppm_body. fold g.
    rewrite lt_unsigned_limit_true by assumption. reflexivity. }
  assert (B1 : short_limit device <= g < long_limit device ->
               next = do_add_bit true s).
  { intros [H1 H2]. subst next. unfold ppm_body. fold g.
    rewrite lt_unsigned_limit_false by assumption.
    rewrite lt_unsigned_limit_true by assumption. reflexivity. }
  assert (B2 : short_limit device <= g ->
               long_limit device <= g < reset_limit device ->
               next = do_add_row s).
  { intros H1 [H2 H3]. subst next. unfold ppm_body. fold g.
    rewrite !lt_unsigned_limit_false by assumption.
    rewrite lt_unsigned_limit_true by assumption. reflexivity. }
  assert (B3 : short_limit device <= g -> long_limit device <= g ->
               reset_limit device <= g ->
               reported cb "pulse_demod_ppm" s next).
  { intros H1 H2 H3. subst next. unfold ppm_body. fold g.
    rewrite !lt_unsigned_limit_false by assumption.
    apply end_of_message_reported. exact Hcb. }
  split; [exact B0|]. split; [exact B1|]. split; [exact B2|]. split; [exact B3|].
  split.
  - intros [Hsl Hlr]. split.
    + intros H. apply B2; [lia | exact H].
    + intros H. apply B3; lia.
  - intros dbg p1 p2 p3 p4 body. subst body.
    destruct dbg; vm_compute; repeat split.
Qed.

(** The four classes at the limits 10 / 20 / 30. *)
Lemma ppm_gap_classes_witness :
  ppm_body 0 (train [(5, 9)]) (dev_10_20_30 0) 0%nat init = do_add_bit false init
  /\ ppm_body 0 (train [(5, 11)]) (dev_10_20_30 0) 0%nat init = do_add_bit true init
  /\ ppm_body 0 (train [(5, 21)]) (dev_10_20_30 0) 0%nat init = do_add_row init
  /\ reported one_per_frame "pulse_demod_ppm" init
       (ppm_body 0 (train [(5, 31)]) (dev_10_20_30 0) 0%nat init).
Proof.
  pose proof limit_ok_intro as Hl.
  pose proof (fun tr => ppm_gap_classes 0 (train tr) (dev_10_20_30 0)
                          one_per_frame 0%nat init eq_refl
                          (Hl 10 eq_refl) (Hl 20 eq_refl) (Hl 30 eq_refl)) as H.
  destruct (H [(5, 9)]) as (B0 & _).
  destruct (H [(5, 11)]) as (_ & B1 & _).
  destruct (H [(5, 21)]) as (_ & _ & B2 & _).
  destruct (H [(5, 31)]) as (_ & _ & _ & B3 & _).
  split; [|split; [|split]].
  - apply B0. vm_compute. reflexivity.
  - apply B1. vm_compute. split; [discriminate | reflexivity].
  - apply B2.
    + vm_compute. discriminate.
    + vm_compute. split; [discriminate | reflexivity].
  - apply B3; vm_compute; discriminate.
Defined.

(** C6 (as stated) fails where the limits are out of order: with the
    limits 10 / 20 / 15 a gap of 17 samples is at least [reset_limit], yet
    it emits bit 1; the callback is not called and the bit buffer is not
    cleared. *)
Lemma ppm_reset_band_overlaps :
  reset_limit dev_10_20_15 <= gap_at (train [(5, 17)]) 0
  /\ ppm_body 0 (train [(5, 17)]) dev_10_20_15 0%nat init = do_add_bit true init
  /\ trace (pulse_demod_ppm_run 0 (train [(5, 17)]) dev_10_20_15) = [OpAddBit true]
  /\ pulse_demod_ppm 0 (train [(5, 17)]) dev_10_20_15 = 0
  /\ ~ reported one_per_frame "pulse_demod_ppm" init
         (ppm_body 0 (train [(5, 17)]) dev_10_20_15 0%nat init).
Proof.
  split; [vm_compute; discriminate|].
  split; [reflexivity|]. split; [reflexivity|]. split; [reflexivity|].
  intros (_ & Hbits & _). vm_compute in Hbits. discriminate Hbits.
Qed.

(** ** The bands of the ternary PWM demodulator *)

(** C7 (as amended).  In the ternary PWM demodulator the band selected by
    the sync selector starts a new row (short for 0, middle for 1, long for
    2), and of the two other bands the shorter emits bit 0 and the longer
    bit 1.  With the selector at 2, or at a value that selects no band, a
    short pulse emits bit 0 and a middle pulse emits bit 1; a long pulse
    emits bit 1 whenever the selector is not 2. *)
Theorem ternary_band_mapping
    (pulses : pulse_data) (device : protocol_state) (n : nat) (s : dstate) :
  limit_ok (short_limit device) ->
  limit_ok (long_limit device) ->
  let x := pulse_at pulses n in
  let sync := sync_bit device in
  let next := ternary_pulse pulses device n s in
  (x < short_limit device ->
     (sync = 0 -> next = do_add_row s)
     /\ (sync <> 0 -> next = do_add_bit false s))
  /\ (short_limit device <= x < long_limit device ->
     (sync = 0 -> next = do_add_bit false s)
     /\ (sync = 1 -> next = do_add_row s)
     /\ (sync <> 0 -> sync <> 1 -> next = do_add_bit true s))
  /\ (short_limit device <= x -> long_limit device <= x ->
     (sync = 2 -> next = do_add_row s)
     /\ (sync <> 2 -> next = do_add_bit true s)).
Proof.
  intros Hs Hl x sync next. subst next. unfold ternary_pulse. fold x sync.
  split; [|split].
  - intros Hx. rewrite lt_unsigned_limit_true by assumption. split.
    + intros ->. reflexivity.
    + intros Hne. apply Z.eqb_neq in Hne. rewrite Hne. reflexivity.
  - intros [H1 H2].
    rewrite lt_unsigned_limit_false by assumption.
    rewrite lt_unsigned_limit_true by assumption.
    split; [|split].
    + intros ->. reflexivity.
    + intros ->. reflexivity.
    + intros N0 N1. apply Z.eqb_neq in N0, N1. rewrite N0, N1. reflexivity.
  - intros H1 H2.
    rewrite !lt_unsigned_limit_false by assumption. split.
    + intros ->. reflexivity.
    + intros Hne. apply Z.eqb_neq in Hne. rewrite Hne. reflexivity.
Qed.

(** With the long band as sync (selector 2) and the limits 10 / 20, a pulse
    of 5 samples emits bit 0 and a pulse of 15 samples emits bit 1. *)
Lemma ternary_band_mapping_witness :
  ternary_pulse (train [(5, 5)]) (dev_10_20_30 2) 0%nat init = do_add_bit false init
  /\ ternary_pulse (train [(15, 5)]) (dev_10_20_30 2) 0%nat init = do_add_bit true init.
Proof.
  pose proof limit_ok_intro as Hl.
  pose proof (fun tr => ternary_band_mapping (train tr) (dev_10_20_30 2) 0%nat init
                          (Hl 10 eq_refl) (Hl 20 eq_refl)) as H.
  destruct (H [(5, 5)]) as (Hshort & _).
  destruct (H [(15, 5)]) as (_ & Hmiddle & _).
  split.
  - apply Hshort; vm_compute; [reflexivity | discriminate].
  - apply Hmiddle; vm_compute; try discriminate.
    split; [discriminate | reflexivity].
Defined.

(** C7 (as stated) fails: with the sync selector at 2, and with a selector
    that selects no band (3), a middle pulse of 15 samples (limits 10 / 20)
    emits bit 1, not bit 0. *)
Lemma ternary_middle_pulse_emits_one :
  sync_bit (dev_10_20_30 2) = 2
  /\ trace (pulse_demod_pwm_ternary_run 0 (train [(15, 5)]) (dev_10_20_30 2))
     = [OpAddBit true]
  /\ trace (pulse_demod_pwm_ternary_run 0 (train [(15, 5)]) (dev_10_20_30 3))
     = [OpAddBit true]
  /\ ternary_pulse (train [(15, 5)]) (dev_10_20_30 2) 0%nat init
     <> do_add_bit false init.
Proof.
  split; [reflexivity|]. split; [reflexivity|]. split; [reflexivity|].
  vm_compute. discriminate.
Qed.

(** ** The start bit of the PWM demodulator *)

Section PwmStartBit.

Variable debug_output : Z.
Variable pulses : pulse_data.
Variable device : protocol_state.
Hypothesis Hstart : start_bit device = 1.

(** [start_bit_detected] after the pulse of an iteration. *)
Lemma pwm_pulse_detected n s d :
  d = 0 \/ d = 1 -> snd (pwm_pulse pulses device n (s, d)) = 1.
Proof.
  intros Hd. unfold pwm_pulse. rewrite Hstart. simpl.
  destruct Hd as [-> | ->]; simpl.
  - reflexivity.
  - destruct (_ <=? _); reflexivity.
Qed.

Lemma pwm_gap_detected n s :
  snd (pwm_gap debug_output pulses device n (s, 1))
  = if pwm_boundary pulses device n then 0 else 1.
Proof.
  unfold pwm_gap, pwm_boundary.
  destruct (gap_at pulses n >? to_unsigned (reset_limit device)); simpl.
  - reflexivity.
  - destruct (gap_at pulses n >? to_unsigned (long_limit device)); reflexivity.
Qed.

(** [start_bit_detected] is 0 exactly at the first pulse of a frame. *)
Lemma pwm_detected_at n :
  snd (after_pulses (pwm_body debug_output pulses device) n (init, 0))
  = if pwm_first_of_frame pulses device n then 0 else 1.
Proof.
  induction n as [|n IH].
  - reflexivity.
  - rewrite after_pulses_S. unfold pwm_body at 1.
    destruct (after_pulses (pwm_body debug_output pulses device) n (init, 0))
      as [s d] eqn:E.
    simpl in IH.
    assert (Hd : d = 0 \/ d = 1)
      by (destruct (pwm_first_of_frame pulses device n); auto).
    pose proof (pwm_pulse_detected n s d Hd) as Hp.
    destruct (pwm_pulse pulses device n (s, d)) as [s1 d1]. simpl in Hp. subst d1.
    rewrite pwm_gap_detected. reflexivity.
Qed.

End PwmStartBit.

(** C8.  In the PWM demodulator with the start bit enabled
    ([demod_arg = 1]), the first pulse of the call, the first pulse after
    an end of message and the first pulse after a new row add nothing to
    the bit buffer, whatever their duration; every other pulse adds one
    bit, so that one pulse is skipped per frame. *)
Theorem pwm_start_bit_skipped
    (debug_output : Z) (pulses : pulse_data) (device : protocol_state) (n : nat) :
  demod_arg device = 1 ->
  let st := after_pulses (pwm_body debug_output pulses device) n (init, 0) in
  let st' := pwm_pulse pulses device n st in
  (pwm_first_of_frame pulses device n = true -> fst st' = fst st)
  /\ (pwm_first_of_frame pulses device n = false ->
      fst st' = do_add_bit (pulse_at pulses n <=? to_unsigned (short_limit device))
                  (fst st)).
Proof.
  intros Harg st st'.
  assert (Hstart : start_bit device = 1) by (unfold start_bit; rewrite Harg; reflexivity).
  pose proof (pwm_detected_at debug_output pulses device Hstart n) as Hd.
  fold st in Hd. subst st'. destruct st as [s d]. simpl in Hd. simpl fst.
  unfold pwm_pulse. rewrite Hstart. split; intros Hf; rewrite Hf in Hd; subst d; simpl.
  - reflexivity.
  - destruct (pulse_at pulses n <=? to_unsigned (short_limit device)); reflexivity.
Qed.

(** The third pulse follows a gap of 40 samples (reset limit 30): its 100
    samples add no bit to the cleared bit buffer; the pulse after it adds
    one. *)
Lemma pwm_start_bit_skipped_witness :
  let tr := train [(100, 5); (8, 40); (100, 5); (100, 5)] in
  let body := pwm_body 0 tr (dev_10_20_30 1) in
  trace (fst (pwm_pulse tr (dev_10_20_30 1) 2 (after_pulses body 2 (init, 0))))
    = [OpAddBit true; OpCallback [[true]]; OpClear]
  /\ trace (fst (pwm_pulse tr (dev_10_20_30 1) 3 (after_pulses body 3 (init, 0))))
    = [OpAddBit true; OpCallback [[true]]; OpClear; OpAddBit false].
Proof.
  intros tr body.
  destruct (pwm_start_bit_skipped 0 tr (dev_10_20_30 1) 2 eq_refl) as [Hskip _].
  destruct (pwm_start_bit_skipped 0 tr (dev_10_20_30 1) 3 eq_refl) as [_ Hbit].
  split.
  - unfold body. rewrite (Hskip eq_refl). reflexivity.
  - unfold body. rewrite (Hbit eq_refl). reflexivity.
Defined.

(** ** The leading zero of the Manchester demodulator *)

Lemma starts_with_zero_add_bit bs b :
  starts_with_zero bs = true -> starts_with_zero (add_bit bs b) = true.
Proof.
  destruct bs as [|r rest]; [discriminate|].
  destruct r as [|[|] r]; try discriminate.
  intros _. destruct rest; reflexivity.
Qed.

Lemma starts_with_zero_positive bs :
  starts_with_zero bs = true -> 0 < bits_per_row bs 0.
Proof.
  destruct bs as [|r rest]; [discriminate|].
  destruct r as [|b r]; [discriminate|].
  intros _. unfold bits_per_row. simpl. lia.
Qed.

Lemma clear_then_zero_app t u :
  clear_then_zero t = true -> clear_then_zero u = true ->
  clear_then_zero (t ++ u) = true.
Proof.
  intros Ht Hu. induction t as [|o t IH]; [exact Hu|].
  destruct o; simpl in *; try (apply IH; exact Ht).
  destruct t as [|o' t']; [discriminate|].
  destruct o' as [[|]| | | | |]; try discriminate.
  simpl. apply IH. exact Ht.
Qed.

Lemma manchester_inv_add_bit b s : manchester_inv s -> manchester_inv (do_add_bit b s).
Proof.
  intros (Hz & Hf & Hc). unfold manchester_inv, do_add_bit. simpl.
  split; [apply starts_with_zero_add_bit, Hz|]. split.
  - rewrite callback_frames_app. simpl. rewrite app_nil_r. exact Hf.
  - apply clear_then_zero_app; [exact Hc | reflexivity].
Qed.

Lemma manchester_inv_restart dbg who device s :
  manchester_inv s ->
  manchester_inv (do_add_bit false (end_of_message dbg who device s)).
Proof.
  intros (Hz & Hf & Hc).
  unfold manchester_inv, do_add_bit, end_of_message, do_clear, do_debug_print,
    do_callback.
  destruct (callback device) as [cb|]; simpl.
  - destruct (negb (dbg =? 0) && _); simpl.
    + split; [reflexivity|]. split.
      * rewrite !callback_frames_app, !forallb_app, Hf. simpl.
        rewrite Hz. reflexivity.
      * rewrite <- !app_assoc. apply clear_then_zero_app; [exact Hc | reflexivity].
    + split; [reflexivity|]. split.
      * rewrite !callback_frames_app, !forallb_app, Hf. simpl.
        rewrite Hz. reflexivity.
      * rewrite <- !app_assoc. apply clear_then_zero_app; [exact Hc | reflexivity].
  - split; [reflexivity|]. split.
    + rewrite !callback_frames_app, !forallb_app, Hf. reflexivity.
    + rewrite <- !app_assoc. apply clear_then_zero_app; [exact Hc | reflexivity].
Qed.

Lemma manchester_inv_falling_edge pulses device n st :
  manchester_inv (fst st) ->
  manchester_inv (fst (manchester_falling_edge pulses device n st)).
Proof.
  destruct st as [s t]. simpl. intros H. unfold manchester_falling_edge.
  destruct (_ >? _); simpl; [apply manchester_inv_add_bit|]; exact H.
Qed.

Lemma manchester_inv_rising_edge dbg pulses device n st :
  manchester_inv (fst st) ->
  manchester_inv (fst (manchester_rising_edge dbg pulses device n st)).
Proof.
  destruct st as [s t]. simpl. intros H. unfold manchester_rising_edge.
  destruct (gap_at pulses n >? _); simpl.
  - apply manchester_inv_restart. exact H.
  - destruct (_ >? _); simpl; [apply manchester_inv_add_bit|]; exact H.
Qed.

Lemma manchester_inv_init : manchester_inv (fst manchester_init).
Proof. repeat split. Qed.

(** What the block at the end of a message adds to the trace: the call of
    the callback, if one is registered, and the print-out, if any, then the
    clear; no bit and no other clear. *)
Lemma end_of_message_trace dbg who device s :
  exists ops,
    trace (end_of_message dbg who device s) = trace s ++ ops ++ [OpClear]
    /\ added_bits ops = []
    /\ ~ In OpClear ops
    /\ callback_frames ops
       = match callback device with Some _ => [bits s] | None => [] end.
Proof.
  unfold end_of_message, do_debug_print, do_callback.
  destruct (callback device) as [cb|]; simpl.
  - destruct (negb (dbg =? 0) && _); simpl.
    + exists [OpCallback (bits s); OpPrint who (bits s)].
      rewrite <- !app_assoc. simpl. repeat split.
      intros [H | [H | []]]; discriminate H.
    + exists [OpCallback (bits s)].
      rewrite <- !app_assoc. simpl. repeat split.
      intros [H | []]; discriminate H.
  - exists [OpPrint who (bits s)].
    rewrite <- !app_assoc. simpl. repeat split.
    intros [H | []]; discriminate H.
Qed.

(** C9.  In the Manchester demodulator the hard-coded bit 0 is added
    before any pulse is read, and again directly after the bit buffer is
    cleared at each transmission boundary: a gap above [reset_limit] calls
    the callback, clears the bit buffer, adds bit 0 and resets the elapsed
    time, and no other gap clears.  So, before and after every step of the
    loop, the first row holds at least one bit and begins with bit 0, and
    every frame handed to the callback begins with bit 0. *)
Theorem manchester_leading_zero
    (debug_output : Z) (pulses : pulse_data) (device : protocol_state) (k : nat) :
  let st := after_pulses (manchester_body debug_output pulses device) k
              manchester_init in
  let mid := manchester_falling_edge pulses device k st in
  let next := after_pulses (manchester_body debug_output pulses device) (S k)
                manchester_init in
  trace (fst manchester_init) = [OpAddBit false]
  /\ starts_with_zero (bits (fst st)) = true
  /\ starts_with_zero (bits (fst mid)) = true
  /\ 0 < bits_per_row (bits (fst st)) 0
  /\ 0 < bits_per_row (bits (fst mid)) 0
  /\ forallb starts_with_zero (callback_frames (trace (fst st))) = true
  /\ clear_then_zero (trace (fst st)) = true
  /\ bits (fst manchester_init) = [[false]]
  /\ ((gap_at pulses k >? to_unsigned (reset_limit device)) = true ->
      bits (fst next) = [[false]]
      /\ snd next = 0
      /\ exists ops,
           trace (fst next) = trace (fst mid) ++ ops ++ [OpClear; OpAddBit false]
           /\ added_bits ops = []
           /\ ~ In OpClear ops
           /\ callback_frames ops
              = match callback device with
                | Some _ => [bits (fst mid)]
                | None => []
                end)
  /\ ((gap_at pulses k >? to_unsigned (reset_limit device)) = false ->
      fst next = fst mid \/ fst next = do_add_bit false (fst mid)).
Proof.
  intros st mid next.
  assert (Hst : manchester_inv (fst st)).
  { subst st.
    apply (after_pulses_invariant (fun x => manchester_inv (fst x))).
    - intros n x Hx. unfold manchester_body.
      apply manchester_inv_rising_edge, manchester_inv_falling_edge, Hx.
    - apply manchester_inv_init. }
  assert (Hmid : manchester_inv (fst mid))
    by (subst mid; apply manchester_inv_falling_edge, Hst).
  assert (Hnext : next = manchester_rising_edge debug_output pulses device k mid).
  { subst next mid st. rewrite after_pulses_S. reflexivity. }
  destruct Hst as (Hz & Hf & Hc). destruct Hmid as (Hz' & _ & _).
  split; [reflexivity|].
  split; [exact Hz|]. split; [exact Hz'|].
  split; [apply starts_with_zero_positive, Hz|].
  split; [apply starts_with_zero_positive, Hz'|].
  split; [exact Hf|]. split; [exact Hc|].
  split; [reflexivity|].
  rewrite Hnext. clearbody mid. destruct mid as [s1 t1].
  unfold manchester_rising_edge. cbn [fst]. split.
  - intros Hgt. rewrite Hgt. cbn [fst snd].
    split; [reflexivity|]. split; [reflexivity|].
    destruct (end_of_message_trace debug_output
                "pulse_demod_manchester_zerobit" device s1)
      as (ops & Ht & Hb & Hc1 & Hfr).
    exists ops. unfold do_add_bit. cbn [trace]. rewrite Ht, <- !app_assoc.
    repeat split; assumption.
  - intros Hle. rewrite Hle.
    destruct (uadd (gap_at pulses k) t1 >? manchester_threshold device); cbn [fst].
    + right. reflexivity.
    + left. reflexivity.
Qed.

(** A pulse of 20 samples followed by 40 samples of silence (limits 10 /
    20 / 30), then one more pulse: the frame 0, 1 is reported, the bit
    buffer is cleared and begins again with the hard-coded 0. *)
Lemma manchester_leading_zero_witness :
  let tr := train [(20, 40); (20, 20)] in
  let dev := dev_10_20_30 0 in
  let next := after_pulses (manchester_body 0 tr dev) 1 manchester_init in
  bits (fst next) = [[false]]
  /\ snd next = 0
  /\ trace (fst next)
     = [OpAddBit false; OpAddBit true; OpCallback [[false; true]]; OpClear;
        OpAddBit false]
  /\ trace (fst (pulse_demod_manchester_zerobit_run 0 tr dev))
     = [OpAddBit false; OpAddBit true; OpCallback [[false; true]]; OpClear;
        OpAddBit false; OpAddBit true; OpAddBit false].
Proof.
  intros tr dev next.
  destruct (manchester_leading_zero 0 tr dev 0)
    as (_ & _ & _ & _ & _ & _ & _ & _ & Hboundary & _).
  destruct (Hboundary eq_refl) as (Hbits & Htime & _).
  split; [exact Hbits|]. split; [exact Htime|].
  split; reflexivity.
Defined.

(** ** The edges of the Manchester demodulator *)

Lemma manchester_threshold_value device :
  limit_ok (short_limit device) ->
  manchester_threshold device = short_limit device + short_limit device / 2.
Proof.
  intros H. destruct (half_limit _ H) as [_ Hh].
  unfold limit_ok in H. unfold manchester_threshold.
  rewrite Z.shiftr_div_pow2 by lia. change (2 ^ 1) with 2.
  apply to_unsigned_small. lia.
Qed.

(** More than one and a half [short_limit], on integers. *)
Lemma over_threshold x l :
  0 <= l -> (x >? l + l / 2) = true <-> 2 * x > 3 * l.
Proof.
  intros Hl. rewrite Z.gtb_lt.
  pose proof (Z_div_mod_eq_full l 2) as Hd.
  pose proof (Z.mod_pos_bound l 2 ltac:(lia)) as Hm. lia.
Qed.

Lemma over_threshold_false x l :
  0 <= l -> (x >? l + l / 2) = false <-> 2 * x <= 3 * l.
Proof.
  intros Hl. rewrite Z.gtb_ltb, Z.ltb_ge.
  pose proof (Z_div_mod_eq_full l 2) as Hd.
  pose proof (Z.mod_pos_bound l 2 ltac:(lia)) as Hm. lia.
Qed.

(** C1 (as amended).  In the Manchester demodulator a falling edge (the
    end of a pulse) that comes more than 1.5 times [short_limit] after the
    last recorded bit emits bit 1, and a rising edge (the end of a gap
    that does not exceed [reset_limit]) under the same condition emits
    bit 0; an edge that comes earlier emits nothing and its duration is
    added to the elapsed time.  For every pulse train and configuration,
    each bit added at the end of a pulse is 1 and each bit added at the
    end of a gap is 0. *)
Theorem manchester_edge_bits
    (debug_output : Z) (pulses : pulse_data) (device : protocol_state)
    (n : nat) (s : dstate) (time_since_last : Z) :
  limit_ok (short_limit device) ->
  limit_ok (reset_limit device) ->
  0 <= time_since_last ->
  0 <= pulse_at pulses n -> pulse_at pulses n + time_since_last < 2 ^ 32 ->
  0 <= gap_at pulses n -> gap_at pulses n + time_since_last < 2 ^ 32 ->
  let falling := manchester_falling_edge pulses device n (s, time_since_last) in
  let rising := manchester_rising_edge debug_output pulses device n (s, time_since_last) in
  (2 * (pulse_at pulses n + time_since_last) > 3 * short_limit device ->
     falling = (do_add_bit true s, 0))
  /\ (2 * (pulse_at pulses n + time_since_last) <= 3 * short_limit device ->
     falling = (s, time_since_last + pulse_at pulses n))
  /\ (gap_at pulses n <= reset_limit device ->
      2 * (gap_at pulses n + time_since_last) > 3 * short_limit device ->
      rising = (do_add_bit false s, 0))
  /\ (gap_at pulses n <= reset_limit device ->
      2 * (gap_at pulses n + time_since_last) <= 3 * short_limit device ->
      rising = (s, time_since_last + gap_at pulses n))
  /\ (added_bits (trace (fst falling)) = added_bits (trace s)
      \/ added_bits (trace (fst falling)) = added_bits (trace s) ++ [true])
  /\ (added_bits (trace (fst rising)) = added_bits (trace s)
      \/ added_bits (trace (fst rising)) = added_bits (trace s) ++ [false]).
Proof.
  intros Hs Hr Ht Hp Hpt Hg Hgt falling rising.
  subst falling rising.
  unfold manchester_falling_edge, manchester_rising_edge, uadd.
  rewrite manchester_threshold_value by exact Hs.
  rewrite (to_unsigned_limit _ Hr).
  rewrite !to_unsigned_small by lia.
  replace (time_since_last + pulse_at pulses n)
    with (pulse_at pulses n + time_since_last) by lia.
  replace (time_since_last + gap_at pulses n)
    with (gap_at pulses n + time_since_last) by lia.
  assert (Hs0 : 0 <= short_limit device) by (unfold limit_ok in Hs; lia).
  split; [|split; [|split; [|split; [|split]]]].
  - intros H. apply (over_threshold _ _ Hs0) in H. rewrite H. reflexivity.
  - intros H. apply (over_threshold_false _ _ Hs0) in H. rewrite H. reflexivity.
  - intros Hle H. apply (over_threshold _ _ Hs0) in H. rewrite H.
    replace (gap_at pulses n >? reset_limit device) with false
      by (symmetry; rewrite Z.gtb_ltb; apply Z.ltb_ge; exact Hle).
    reflexivity.
  - intros Hle H. apply (over_threshold_false _ _ Hs0) in H. rewrite H.
    replace (gap_at pulses n >? reset_limit device) with false
      by (symmetry; rewrite Z.gtb_ltb; apply Z.ltb_ge; exact Hle).
    reflexivity.
  - destruct (_ >? _); simpl.
    + right. rewrite added_bits_app. reflexivity.
    + left. reflexivity.
  - destruct (gap_at pulses n >? reset_limit device); cbn [fst].
    + right. unfold do_add_bit. cbn [trace].
      rewrite added_bits_app, added_bits_end_of_message. reflexivity.
    + destruct (_ >? _); simpl.
      * right. rewrite added_bits_app. reflexivity.
      * left. reflexivity.
Qed.

(** A pulse and a gap of 20 samples each with [short_limit = 10]: the end
    of the pulse emits bit 1, the end of the gap emits bit 0. *)
Lemma manchester_edge_bits_witness :
  manchester_falling_edge (train [(20, 20)]) (dev_10_20_30 0) 0%nat (init, 0)
    = (do_add_bit true init, 0)
  /\ manchester_rising_edge 0 (train [(20, 20)]) (dev_10_20_30 0) 0%nat (init, 0)
    = (do_add_bit false init, 0).
Proof.
  pose proof limit_ok_intro as Hl.
  assert (Hlt : forall a b, (a <? b) = true -> a < b)
    by (intros a b; apply Z.ltb_lt).
  assert (Hle : forall a b, (a <=? b) = true -> a <= b)
    by (intros a b; apply Z.leb_le).
  destruct (manchester_edge_bits 0 (train [(20, 20)]) (dev_10_20_30 0) 0%nat init 0
              (Hl 10 eq_refl) (Hl 30 eq_refl) (Hle 0 0 eq_refl)
              (Hle 0 20 eq_refl) (Hlt (20 + 0) (2 ^ 32) eq_refl)
              (Hle 0 20 eq_refl) (Hlt (20 + 0) (2 ^ 32) eq_refl))
    as (Hfall & _ & Hrise & _).
  split.
  - apply Hfall. vm_compute. reflexivity.
  - apply Hrise; vm_compute; [discriminate | reflexivity].
Defined.

(** C1 (as stated) fails.  One pulse and one gap of 20 samples each
    ([short_limit = 10], so both edges come more than 15 samples after the
    last recorded bit): after the hard-coded zero, the falling edge at the
    end of the pulse adds bit 1, not bit 0, and the rising edge at the end
    of the gap adds bit 0, not bit 1. *)
Lemma manchester_rising_edge_emits_zero :
  let tr := train [(20, 20)] in
  let dev := dev_10_20_30 0 in
  let mid := manchester_falling_edge tr dev 0%nat manchester_init in
  let fin := manchester_rising_edge 0 tr dev 0%nat mid in
  trace (fst mid) = [OpAddBit false; OpAddBit true]
  /\ trace (fst fin) = [OpAddBit false; OpAddBit true; OpAddBit false]
  /\ pulse_demod_manchester_zerobit_run 0 tr dev = fin
  /\ fst fin <> do_add_bit true (fst mid)
  /\ fst mid <> do_add_bit false (fst manchester_init).
Proof.
  intros tr dev mid fin.
  split; [reflexivity|]. split; [reflexivity|]. split; [reflexivity|].
  split; vm_compute; discriminate.
Qed.

(** ** A corrupt pulse at the end of a PCM message *)

Lemma callback_frames_repeat_bit b k :
  callback_frames (repeat (OpAddBit b) k) = [].
Proof. induction k as [|k IH]; [reflexivity | exact IH]. Qed.

Lemma events_add_run b k s : events (add_run b k s) = events s.
Proof.
  unfold add_run. induction (Z.to_nat k) as [|m IH]; [reflexivity | exact IH].
Qed.

Lemma pcm_emit_no_callback pulses device n s :
  callback_frames (trace (pcm_emit pulses device n s)) = callback_frames (trace s)
  /\ events (pcm_emit pulses device n s) = events s.
Proof.
  unfold pcm_emit. split.
  - rewrite !trace_add_run, !callback_frames_app, !callback_frames_repeat_bit.
    rewrite !app_nil_r. reflexivity.
  - rewrite !events_add_run. reflexivity.
Qed.

(** C10.  In the PCM demodulator with [short_limit <> long_limit], a pulse
    out of tolerance clears the bit buffer before the end-of-message
    check; when that pulse is the last of the train, or its gap exceeds
    [reset_limit], the check finds the first row empty: the callback is
    not called and no event is counted, whatever bits were accumulated
    before. *)
Theorem pcm_corrupt_pulse_reports_nothing
    (debug_output : Z) (pulses : pulse_data) (device : protocol_state)
    (n : nat) (s : dstate) :
  short_limit device <> long_limit device ->
  limit_ok (short_limit device) ->
  limit_ok (long_limit device) ->
  limit_ok (pulse_at pulses n) ->
  long_limit device / 4 < Z.abs (pulse_at pulses n - short_limit device) ->
  n = (num_pulses pulses - 1)%nat \/ reset_limit device < gap_at pulses n ->
  let checked := pcm_validate debug_output pulses device n (pcm_emit pulses device n s) in
  let s' := pcm_body debug_output pulses device n s in
  bits checked = empty
  /\ bits_per_row (bits checked) 0 = 0
  /\ s' = checked
  /\ callback_frames (trace s') = callback_frames (trace s)
  /\ events s' = events s.
Proof.
  intros Hne Hs Hl Hp Htol _ checked s'.
  assert (Hcorrupt : pcm_corrupt pulses device n = true).
  { unfold pcm_corrupt, TOLERANCE.
    apply Z.eqb_neq in Hne. rewrite Hne. simpl.
    unfold limit_ok in *.
    rewrite abs_diff_exact by lia.
    rewrite Z.quot_div_nonneg by lia.
    apply Z.gtb_lt. exact Htol. }
  assert (Hbits : bits checked = empty).
  { subst checked. unfold pcm_validate. rewrite Hcorrupt. reflexivity. }
  assert (Hsame : s' = checked).
  { subst s'. unfold pcm_body. fold checked. unfold pcm_end.
    rewrite Hbits. rewrite andb_false_r. reflexivity. }
  split; [exact Hbits|]. split; [rewrite Hbits; reflexivity|].
  split; [exact Hsame|].
  destruct (pcm_emit_no_callback pulses device n s) as [Hf He].
  rewrite Hsame. subst checked. unfold pcm_validate. rewrite Hcorrupt.
  destruct (debug_output >? 3); simpl;
    rewrite ?callback_frames_app, Hf, He; simpl; rewrite ?app_nil_r; split; reflexivity.
Qed.

(** A good pulse, then a last pulse of 30 samples (short limit 10,
    tolerance 5) before a long silence: the callback is never called and
    the call returns 0. *)
Lemma pcm_corrupt_pulse_reports_nothing_witness :
  let tr := train [(10, 10); (30, 40)] in
  let dev := dev_10_20_30 0 in
  bits (after_pulses (pcm_body 0 tr dev) 1 init) = [[true]]
  /\ callback_frames (trace (after_pulses (pcm_body 0 tr dev) 2 init)) = []
  /\ pulse_demod_pcm 0 tr dev = Some 0.
Proof.
  intros tr dev.
  pose proof limit_ok_intro as Hl.
  assert (Hne : short_limit dev <> long_limit dev) by (vm_compute; discriminate).
  assert (Htol : long_limit dev / 4 < Z.abs (pulse_at tr 1 - short_limit dev))
    by (vm_compute; reflexivity).
  destruct (pcm_corrupt_pulse_reports_nothing 0 tr dev 1
              (after_pulses (pcm_body 0 tr dev) 1 init)
              Hne (Hl 10 eq_refl) (Hl 20 eq_refl) (Hl 30 eq_refl) Htol
              (or_introl eq_refl))
    as (_ & _ & _ & Hframes & Hevents).
  split; [reflexivity|]. split.
  - rewrite after_pulses_S, Hframes. reflexivity.
  - change (pulse_demod_pcm 0 tr dev)
      with (Some (events (after_pulses (pcm_body 0 tr dev) 2 init))).
    rewrite after_pulses_S, Hevents. reflexivity.
Defined.

(** * Further properties of the demodulators *)

(** ** Without a callback *)

Section NoCallback.

Variable debug_output : Z.
Variable pulses : pulse_data.
Variable device : protocol_state.
Hypothesis Hnone : callback device = None.

Lemma events_end_of_message_none who s :
  events (end_of_message debug_output who device s) = events s.
Proof.
  unfold end_of_message, do_debug_print, do_callback. rewrite Hnone. reflexivity.
Qed.

Lemma events_pcm_body_none n s :
  events (pcm_body debug_output pulses device n s) = events s.
Proof.
  unfold pcm_body, pcm_end, pcm_validate, pcm_emit.
  case_tests; rewrite ?events_end_of_message_none; cbn [events do_clear do_log];
    rewrite !events_add_run; reflexivity.
Qed.

Lemma events_ppm_body_none n s :
  events (ppm_body debug_output pulses device n s) = events s.
Proof.
  unfold ppm_body. case_tests; rewrite ?events_end_of_message_none; reflexivity.
Qed.

Lemma events_pwm_body_none n st :
  events (fst (pwm_body debug_output pulses device n st)) = events (fst st).
Proof.
  destruct st as [s d]. unfold pwm_body, pwm_gap, pwm_pulse.
  case_tests; cbn [fst events do_add_bit do_add_row];
    rewrite ?events_end_of_message_none; reflexivity.
Qed.

Lemma events_ternary_body_none n s :
  events (ternary_body debug_output pulses device n s) = events s.
Proof.
  unfold ternary_body, ternary_gap, ternary_pulse.
  case_tests; rewrite ?events_end_of_message_none; reflexivity.
Qed.

Lemma events_manchester_body_none n st :
  events (fst (manchester_body debug_output pulses device n st)) = events (fst st).
Proof.
  destruct st as [s t].
  unfold manchester_body, manchester_rising_edge, manchester_falling_edge.
  case_tests; cbn [fst events do_add_bit do_add_row];
    rewrite ?events_end_of_message_none; reflexivity.
Qed.

Lemma events_precise_loop_none p ns : forall s,
  events (outcome_state (precise_loop debug_output pulses device p ns s)) = events s.
Proof.
  induction ns as [|n ns IH]; intros s; simpl; [reflexivity|].
  unfold precise_body, precise_pulse, precise_gap.
  case_tests; cbn [outcome_state]; rewrite ?IH;
    cbn [events do_add_bit do_add_row];
    rewrite ?events_end_of_message_none; reflexivity.
Qed.

End NoCallback.

(** X1.  Without a registered callback every demodulator returns 0, for
    every pulse train and every limits (the PCM demodulator where its
    divisions are defined). *)
Theorem no_callback_returns_zero
    (debug_output : Z) (pulses : pulse_data) (device : protocol_state)
    (p : PWM_Precise_Parameters) :
  callback device = None ->
  pulse_demod_pcm debug_output pulses device
    = (if pcm_defined pulses device then Some 0 else None)
  /\ pulse_demod_ppm debug_output pulses device = 0
  /\ pulse_demod_pwm debug_output pulses device = 0
  /\ pulse_demod_pwm_ternary debug_output pulses device = 0
  /\ pulse_demod_manchester_zerobit debug_output pulses device = 0
  /\ pulse_demod_pwm_precise debug_output pulses device p = 0.
Proof.
  intros Hnone. split; [|split; [|split; [|split; [|split]]]].
  - unfold pulse_demod_pcm, pulse_demod_pcm_run.
    destruct (pcm_defined pulses device); [|reflexivity].
    simpl. f_equal. rewrite for_pulses_after.
    apply (after_pulses_invariant (fun s => events s = 0)); [|reflexivity].
    intros n x Hx. rewrite events_pcm_body_none; assumption.
  - unfold pulse_demod_ppm, pulse_demod_ppm_run. rewrite for_pulses_after.
    apply (after_pulses_invariant (fun s => events s = 0)); [|reflexivity].
    intros n x Hx. rewrite events_ppm_body_none; assumption.
  - unfold pulse_demod_pwm, pulse_demod_pwm_run. rewrite for_pulses_after.
    apply (after_pulses_invariant (fun st => events (fst st) = 0)); [|reflexivity].
    intros n x Hx. rewrite events_pwm_body_none; assumption.
  - unfold pulse_demod_pwm_ternary, pulse_demod_pwm_ternary_run.
    rewrite for_pulses_after.
    apply (after_pulses_invariant (fun s => events s = 0)); [|reflexivity].
    intros n x Hx. rewrite events_ternary_body_none; assumption.
  - unfold pulse_demod_manchester_zerobit, pulse_demod_manchester_zerobit_run.
    rewrite for_pulses_after.
    apply (after_pulses_invariant (fun st => events (fst st) = 0)); [|reflexivity].
    intros n x Hx. rewrite events_manchester_body_none; assumption.
  - unfold pulse_demod_pwm_precise, pulse_demod_pwm_precise_run.
    pose proof (events_precise_loop_none debug_output pulses device Hnone p
                  (seq 0 (num_pulses pulses)) init) as H.
    destruct (precise_loop debug_output pulses device p _ init) as [s|r s] eqn:E.
    + exact H.
    + eapply precise_loop_returns_zero. exact E.
Qed.

(** Two messages and no callback: nothing is counted. *)
Lemma no_callback_returns_zero_witness :
  pulse_demod_ppm 0 (train [(5, 9); (5, 40); (5, 11); (5, 40)]) dev_silent = 0
  /\ pulse_demod_pcm 0 (train [(10, 40); (10, 40)]) dev_silent = Some 0.
Proof.
  destruct (no_callback_returns_zero 0 (train [(5, 9); (5, 40); (5, 11); (5, 40)])
              dev_silent precise_3 eq_refl) as (_ & Hppm & _).
  destruct (no_callback_returns_zero 0 (train [(10, 40); (10, 40)])
              dev_silent precise_3 eq_refl) as (Hpcm & _).
  split; [exact Hppm | exact Hpcm].
Defined.

(** ** The sign of the event count *)

Lemma callback_sum_nonneg cb t :
  (forall f, 0 <= cb f) -> 0 <= callback_sum cb t.
Proof.
  intros Hcb. unfold callback_sum.
  induction (callback_frames t) as [|f l IH]; simpl; [lia|].
  specialize (Hcb f). lia.
Qed.

(** X2.  With a callback that never returns a negative number, no
    demodulator returns a negative number. *)
Theorem event_count_nonnegative
    (debug_output : Z) (pulses : pulse_data) (device : protocol_state)
    (p : PWM_Precise_Parameters) (cb : bitbuffer -> Z) :
  callback device = Some cb ->
  (forall f, 0 <= cb f) ->
  (forall r, pulse_demod_pcm debug_output pulses device = Some r -> 0 <= r)
  /\ 0 <= pulse_demod_ppm debug_output pulses device
  /\ 0 <= pulse_demod_pwm debug_output pulses device
  /\ 0 <= pulse_demod_pwm_ternary debug_output pulses device
  /\ 0 <= pulse_demod_manchester_zerobit debug_output pulses device
  /\ 0 <= pulse_demod_pwm_precise debug_output pulses device p.
Proof.
  intros Hcb Hpos.
  assert (Hacc : forall s, accounted cb s -> 0 <= events s).
  { intros s Hs. rewrite Hs. apply callback_sum_nonneg, Hpos. }
  split; [|split; [|split; [|split; [|split]]]].
  - intros r. unfold pulse_demod_pcm, pulse_demod_pcm_run.
    destruct (pcm_defined pulses device); [|discriminate].
    simpl. intros Hr. inversion Hr; subst r. apply Hacc.
    rewrite for_pulses_after.
    apply (after_pulses_invariant (accounted cb)); [|apply accounted_init].
    intros n x. apply accounted_pcm_body. exact Hcb.
  - apply Hacc. unfold pulse_demod_ppm_run. rewrite for_pulses_after.
    apply (after_pulses_invariant (accounted cb)); [|apply accounted_init].
    intros n x. apply accounted_ppm_body. exact Hcb.
  - apply Hacc. unfold pulse_demod_pwm_run. rewrite for_pulses_after.
    apply (after_pulses_invariant (fun st => accounted cb (fst st)));
      [|apply accounted_init].
    intros n x. apply accounted_pwm_body. exact Hcb.
  - apply Hacc. unfold pulse_demod_pwm_ternary_run. rewrite for_pulses_after.
    apply (after_pulses_invariant (accounted cb)); [|apply accounted_init].
    intros n x. apply accounted_ternary_body. exact Hcb.
  - apply Hacc. unfold pulse_demod_manchester_zerobit_run. rewrite for_pulses_after.
    apply (after_pulses_invariant (fun st => accounted cb (fst st))).
    + intros n x. apply accounted_manchester_body. exact Hcb.
    + unfold manchester_init. simpl. apply accounted_add_bit, accounted_init.
  - unfold pulse_demod_pwm_precise, pulse_demod_pwm_precise_run.
    pose proof (accounted_precise_loop debug_output pulses device cb Hcb p
                  (seq 0 (num_pulses pulses)) init (accounted_init cb)) as H.
    destruct (precise_loop debug_output pulses device p _ init) as [s|r s] eqn:E.
    + apply Hacc, H.
    + apply precise_loop_returns_zero in E. lia.
Qed.

(** A callback that counts rows, on a train with a new row and an end of
    message. *)
Lemma event_count_nonnegative_witness :
  0 <= pulse_demod_pwm 0 (train [(5, 25); (5, 40)])
         {| callback := Some rows_of_frame; short_limit := 10; long_limit := 20;
            reset_limit := 30; name := "rows"%string; demod_arg := 0 |}.
Proof.
  assert (Hpos : forall f, 0 <= rows_of_frame f)
    by (intros f; unfold rows_of_frame; lia).
  apply (event_count_nonnegative 0 (train [(5, 25); (5, 40)])
           {| callback := Some rows_of_frame; short_limit := 10; long_limit := 20;
              reset_limit := 30; name := "rows"%string; demod_arg := 0 |}
           precise_3 rows_of_frame eq_refl Hpos).
Defined.

(** ** The debug level *)

Lemma same_decoding_refl s : same_decoding s s.
Proof. repeat split. Qed.

Lemma filter_quiet_snoc t o :
  filter quiet (t ++ [o]) = filter quiet t ++ (if quiet o then [o] else []).
Proof. rewrite filter_app. reflexivity. Qed.

Lemma same_add_bit b s1 s2 :
  same_decoding s1 s2 -> same_decoding (do_add_bit b s1) (do_add_bit b s2).
Proof.
  intros (He & Hb & Ht). unfold same_decoding, do_add_bit. simpl.
  rewrite !filter_quiet_snoc, He, Hb, Ht. repeat split.
Qed.

Lemma same_add_row s1 s2 :
  same_decoding s1 s2 -> same_decoding (do_add_row s1) (do_add_row s2).
Proof.
  intros (He & Hb & Ht). unfold same_decoding, do_add_row. simpl.
  rewrite !filter_quiet_snoc, He, Hb, Ht. repeat split.
Qed.

Lemma same_clear s1 s2 :
  same_decoding s1 s2 -> same_decoding (do_clear s1) (do_clear s2).
Proof.
  intros (He & Hb & Ht). unfold same_decoding, do_clear. simpl.
  rewrite !filter_quiet_snoc, He, Ht. repeat split.
Qed.

Lemma same_callback device s1 s2 :
  same_decoding s1 s2 ->
  same_decoding (do_callback device s1) (do_callback device s2).
Proof.
  intros (He & Hb & Ht). unfold same_decoding, do_callback.
  destruct (callback device) as [cb|]; simpl.
  - rewrite !filter_quiet_snoc, He, Hb, Ht. repeat split.
  - repeat split; assumption.
Qed.

Lemma same_log_left o s1 s2 :
  quiet o = false -> same_decoding s1 s2 -> same_decoding (do_log o s1) s2.
Proof.
  intros Ho (He & Hb & Ht). unfold same_decoding, do_log. simpl.
  rewrite filter_quiet_snoc, Ho, app_nil_r. repeat split; assumption.
Qed.

Lemma same_log_right o s1 s2 :
  quiet o = false -> same_decoding s1 s2 -> same_decoding s1 (do_log o s2).
Proof.
  intros Ho (He & Hb & Ht). unfold same_decoding, do_log. simpl.
  rewrite filter_quiet_snoc, Ho, app_nil_r. repeat split; assumption.
Qed.

Lemma same_debug_print dbg1 dbg2 who device s1 s2 :
  same_decoding s1 s2 ->
  same_decoding (do_debug_print dbg1 who device s1)
                (do_debug_print dbg2 who device s2).
Proof.
  intros H. unfold do_debug_print.
  repeat match goal with
         | |- context [if ?c then _ else _] => destruct c
         end;
    try apply same_log_left; try apply same_log_right;
    try reflexivity; exact H.
Qed.

Lemma same_end_of_message dbg1 dbg2 who device s1 s2 :
  same_decoding s1 s2 ->
  same_decoding (end_of_message dbg1 who device s1)
                (end_of_message dbg2 who device s2).
Proof.
  intros H. unfold end_of_message.
  apply same_clear, same_debug_print, same_callback, H.
Qed.

Lemma same_add_run b k s1 s2 :
  same_decoding s1 s2 -> same_decoding (add_run b k s1) (add_run b k s2).
Proof.
  intros H. unfold add_run. induction (Z.to_nat k) as [|m IH]; simpl.
  - exact H.
  - apply same_add_bit, IH.
Qed.

Lemma after_pulses_related {A B : Type} (R : A -> B -> Prop)
    (b1 : nat -> A -> A) (b2 : nat -> B -> B) s1 s2 :
  (forall n x y, R x y -> R (b1 n x) (b2 n y)) ->
  R s1 s2 -> forall k, R (after_pulses b1 k s1) (after_pulses b2 k s2).
Proof.
  intros Hstep Hinit k. induction k as [|k IH].
  - exact Hinit.
  - rewrite !after_pulses_S. apply Hstep, IH.
Qed.

Section DebugLevel.

Variables dbg1 dbg2 : Z.
Variable pulses : pulse_data.
Variable device : protocol_state.

Lemma same_pcm_body n s1 s2 :
  same_decoding s1 s2 ->
  same_decoding (pcm_body dbg1 pulses device n s1) (pcm_body dbg2 pulses device n s2).
Proof.
  intros H. unfold pcm_body.
  assert (Hemit : same_decoding (pcm_emit pulses device n s1)
                                (pcm_emit pulses device n s2)).
  { unfold pcm_emit. apply same_add_run, same_add_run, H. }
  assert (Hval : same_decoding (pcm_validate dbg1 pulses device n (pcm_emit pulses device n s1))
                               (pcm_validate dbg2 pulses device n (pcm_emit pulses device n s2))).
  { unfold pcm_validate. destruct (pcm_corrupt pulses device n); [|exact Hemit].
    apply same_clear.
    destruct (dbg1 >? 3), (dbg2 >? 3);
      try apply same_log_left; try apply same_log_right;
      try reflexivity; exact Hemit. }
  unfold pcm_end. destruct Hval as (He & Hb & Ht). rewrite Hb.
  destruct (_ && _).
  - apply same_end_of_message. repeat split; assumption.
  - repeat split; assumption.
Qed.

Lemma same_ppm_body n s1 s2 :
  same_decoding s1 s2 ->
  same_decoding (ppm_body dbg1 pulses device n s1) (ppm_body dbg2 pulses device n s2).
Proof.
  intros H. unfold ppm_body.
  case_tests; auto using same_add_bit, same_add_row, same_end_of_message.
Qed.

Lemma same_pwm_body n st1 st2 :
  same_decoding (fst st1) (fst st2) /\ snd st1 = snd st2 ->
  same_decoding (fst (pwm_body dbg1 pulses device n st1))
                (fst (pwm_body dbg2 pulses device n st2))
  /\ snd (pwm_body dbg1 pulses device n st1) = snd (pwm_body dbg2 pulses device n st2).
Proof.
  destruct st1 as [s1 d1], st2 as [s2 d2]. simpl. intros [H <-].
  unfold pwm_body, pwm_gap, pwm_pulse.
  case_tests; cbn [fst snd]; split; try reflexivity;
    auto using same_add_bit, same_add_row, same_end_of_message.
Qed.

Lemma same_ternary_body n s1 s2 :
  same_decoding s1 s2 ->
  same_decoding (ternary_body dbg1 pulses device n s1)
                (ternary_body dbg2 pulses device n s2).
Proof.
  intros H. unfold ternary_body, ternary_gap, ternary_pulse.
  case_tests; auto using same_add_bit, same_add_row, same_end_of_message.
Qed.

Lemma same_manchester_body n st1 st2 :
  same_decoding (fst st1) (fst st2) /\ snd st1 = snd st2 ->
  same_decoding (fst (manchester_body dbg1 pulses device n st1))
                (fst (manchester_body dbg2 pulses device n st2))
  /\ snd (manchester_body dbg1 pulses device n st1)
     = snd (manchester_body dbg2 pulses device n st2).
Proof.
  destruct st1 as [s1 t1], st2 as [s2 t2]. simpl. intros [H <-].
  unfold manchester_body, manchester_rising_edge, manchester_falling_edge.
  case_tests; cbn [fst snd]; split; try reflexivity;
    auto 6 using same_add_bit, same_add_row, same_end_of_message.
Qed.

Lemma same_precise_loop p ns : forall s1 s2,
  same_decoding s1 s2 ->
  same_outcome (precise_loop dbg1 pulses device p ns s1)
               (precise_loop dbg2 pulses device p ns s2).
Proof.
  induction ns as [|n ns IH]; intros s1 s2 H; simpl; [exact H|].
  unfold precise_body, precise_pulse, precise_gap.
  case_tests; try apply IH; simpl;
    auto using same_add_bit, same_add_row, same_end_of_message.
Qed.

End DebugLevel.

(** X3.  The debug level changes nothing but the print-outs: for any two
    values of [debug_output], every demodulator returns the same number,
    leaves the same bit buffer and makes the same calls to the bit buffer
    and to the callback, in the same order. *)
Theorem debug_output_only_prints
    (dbg1 dbg2 : Z) (pulses : pulse_data) (device : protocol_state)
    (p : PWM_Precise_Parameters) :
  pulse_demod_pcm dbg1 pulses device = pulse_demod_pcm dbg2 pulses device
  /\ same_decoding (for_pulses pulses (pcm_body dbg1 pulses device) init)
                   (for_pulses pulses (pcm_body dbg2 pulses device) init)
  /\ same_decoding (pulse_demod_ppm_run dbg1 pulses device)
                   (pulse_demod_ppm_run dbg2 pulses device)
  /\ same_decoding (fst (pulse_demod_pwm_run dbg1 pulses device))
                   (fst (pulse_demod_pwm_run dbg2 pulses device))
  /\ same_decoding (pulse_demod_pwm_ternary_run dbg1 pulses device)
                   (pulse_demod_pwm_ternary_run dbg2 pulses device)
  /\ same_decoding (fst (pulse_demod_manchester_zerobit_run dbg1 pulses device))
                   (fst (pulse_demod_manchester_zerobit_run dbg2 pulses device))
  /\ same_outcome (pulse_demod_pwm_precise_run dbg1 pulses device p)
                  (pulse_demod_pwm_precise_run dbg2 pulses device p)
  /\ pulse_demod_pwm_precise dbg1 pulses device p
     = pulse_demod_pwm_precise dbg2 pulses device p.
Proof.
  assert (Hpcm : same_decoding (for_pulses pulses (pcm_body dbg1 pulses device) init)
                               (for_pulses pulses (pcm_body dbg2 pulses device) init)).
  { rewrite !for_pulses_after.
    apply (after_pulses_related same_decoding); [|apply same_decoding_refl].
    intros n x y. apply same_pcm_body. }
  assert (Hprecise : same_outcome (pulse_demod_pwm_precise_run dbg1 pulses device p)
                                  (pulse_demod_pwm_precise_run dbg2 pulses device p)).
  { apply same_precise_loop, same_decoding_refl. }
  split; [|split; [exact Hpcm|]].
  { unfold pulse_demod_pcm, pulse_demod_pcm_run.
    destruct (pcm_defined pulses device); [|reflexivity].
    simpl. f_equal. apply Hpcm. }
  split.
  { unfold pulse_demod_ppm_run. rewrite !for_pulses_after.
    apply (after_pulses_related same_decoding); [|apply same_decoding_refl].
    intros n x y. apply same_ppm_body. }
  split.
  { unfold pulse_demod_pwm_run. rewrite !for_pulses_after.
    apply (after_pulses_related
             (fun a b => same_decoding (fst a) (fst b) /\ snd a = snd b)).
    - intros n x y. apply same_pwm_body.
    - split; [apply same_decoding_refl | reflexivity]. }
  split.
  { unfold pulse_demod_pwm_ternary_run. rewrite !for_pulses_after.
    apply (after_pulses_related same_decoding); [|apply same_decoding_refl].
    intros n x y. apply same_ternary_body. }
  split.
  { unfold pulse_demod_manchester_zerobit_run. rewrite !for_pulses_after.
    apply (after_pulses_related
             (fun a b => same_decoding (fst a) (fst b) /\ snd a = snd b)).
    - intros n x y. apply same_manchester_body.
    - split; [apply same_decoding_refl | reflexivity]. }
  split; [exact Hprecise|].
  unfold pulse_demod_pwm_precise.
  destruct (pulse_demod_pwm_precise_run dbg1 pulses device p) as [a|r1 a],
           (pulse_demod_pwm_precise_run dbg2 pulses device p) as [b|r2 b];
    simpl in Hprecise; try contradiction.
  - apply Hprecise.
  - apply Hprecise.
Qed.

(** ** What the PPM demodulator reads and emits *)

Lemma after_pulses_ext {A : Type} (b1 b2 : nat -> A -> A) k s :
  (forall n x, (n < k)%nat -> b1 n x = b2 n x) ->
  after_pulses b1 k s = after_pulses b2 k s.
Proof.
  induction k as [|k IH]; intros H; [reflexivity|].
  rewrite !after_pulses_S, IH by (intros n x Hn; apply H; lia).
  apply H. lia.
Qed.

(** X4.  The PPM demodulator does not read the pulse durations: two
    trains of the same number of pulses and the same gaps are decoded
    alike, with the same calls, bit buffer and event count. *)
Theorem ppm_ignores_pulse_durations
    (debug_output : Z) (pulses1 pulses2 : pulse_data) (device : protocol_state) :
  num_pulses pulses1 = num_pulses pulses2 ->
  (forall n, (n < num_pulses pulses1)%nat -> gap_at pulses1 n = gap_at pulses2 n) ->
  pulse_demod_ppm_run debug_output pulses1 device
  = pulse_demod_ppm_run debug_output pulses2 device.
Proof.
  intros Hnum Hgap. unfold pulse_demod_ppm_run.
  rewrite !for_pulses_after, <- Hnum.
  apply after_pulses_ext. intros n x Hn.
  unfold ppm_body. rewrite (Hgap n Hn). reflexivity.
Qed.

(** Pulses of 1 and 1000 samples, the same gaps. *)
Lemma ppm_ignores_pulse_durations_witness :
  pulse_demod_ppm_run 0 (train [(1, 9); (1, 11); (1, 40)]) (dev_10_20_30 0)
  = pulse_demod_ppm_run 0 (train [(1000, 9); (5, 11); (70, 40)]) (dev_10_20_30 0).
Proof.
  apply (ppm_ignores_pulse_durations 0 (train [(1, 9); (1, 11); (1, 40)])
           (train [(1000, 9); (5, 11); (70, 40)]) (dev_10_20_30 0) eq_refl).
  intros n Hn. simpl in Hn.
  destruct n as [|[|[|n]]]; [reflexivity | reflexivity | reflexivity | lia].
Defined.

Lemma added_bits_snoc t o :
  added_bits (t ++ [o])
  = added_bits t ++ match o with OpAddBit b => [b] | _ => [] end.
Proof. rewrite added_bits_app. destruct o; reflexivity. Qed.

Lemma added_bits_add_bit b s :
  added_bits (trace (do_add_bit b s)) = added_bits (trace s) ++ [b].
Proof. unfold do_add_bit. simpl. apply added_bits_snoc. Qed.

Lemma added_bits_add_row s :
  added_bits (trace (do_add_row s)) = added_bits (trace s).
Proof. unfold do_add_row. simpl. rewrite added_bits_snoc. apply app_nil_r. Qed.

Lemma added_bits_ppm_body dbg pulses device n s :
  added_bits (trace (ppm_body dbg pulses device n s))
  = added_bits (trace s) ++ ppm_bits pulses device n.
Proof.
  unfold ppm_body, ppm_bits. case_tests;
    rewrite ?added_bits_add_bit, ?added_bits_add_row, ?added_bits_end_of_message,
      ?app_nil_r; reflexivity.
Qed.

(** X5.  The bits the PPM demodulator adds during a call are, gap after
    gap, a 0 for a gap below [short_limit], a 1 for a gap from there up to
    [long_limit] and nothing for a longer gap; they do not depend on
    [reset_limit], on the callback or on the debug level. *)
Theorem ppm_bit_stream
    (debug_output : Z) (pulses : pulse_data) (device : protocol_state) :
  added_bits (trace (pulse_demod_ppm_run debug_output pulses device))
  = flat_map (ppm_bits pulses device) (seq 0 (num_pulses pulses)).
Proof.
  unfold pulse_demod_ppm_run. rewrite for_pulses_after.
  induction (num_pulses pulses) as [|k IH]; [reflexivity|].
  rewrite after_pulses_S, added_bits_ppm_body, IH.
  rewrite seq_S, flat_map_app. simpl. rewrite app_nil_r. reflexivity.
Qed.

(** ** The bits of the PWM demodulator *)

Lemma added_bits_pwm_gap dbg pulses device n st :
  added_bits (trace (fst (pwm_gap dbg pulses device n st)))
  = added_bits (trace (fst st)).
Proof.
  destruct st as [s d]. unfold pwm_gap. case_tests; cbn [fst];
    rewrite ?added_bits_add_row, ?added_bits_end_of_message; reflexivity.
Qed.

Lemma added_bits_pwm_pulse dbg pulses device n :
  let st := after_pulses (pwm_body dbg pulses device) n (init, 0) in
  added_bits (trace (fst (pwm_pulse pulses device n st)))
  = added_bits (trace (fst st))
    ++ (if pwm_skipped pulses device n then [] else [pwm_bit pulses device n]).
Proof.
  intros st. unfold pwm_skipped, pwm_bit.
  destruct (start_bit device =? 1) eqn:Hsb.
  - apply Z.eqb_eq in Hsb.
    pose proof (pwm_detected_at dbg pulses device Hsb n) as Hd. fold st in Hd.
    destruct st as [s d]. simpl in Hd. subst d.
    unfold pwm_pulse. rewrite Hsb. simpl.
    destruct (pwm_first_of_frame pulses device n); simpl.
    + rewrite app_nil_r. reflexivity.
    + destruct (_ <=? _); apply added_bits_add_bit.
  - destruct st as [s d]. unfold pwm_pulse. rewrite Hsb. simpl.
    destruct (_ <=? _); apply added_bits_add_bit.
Qed.

(** X6.  The bits the PWM demodulator adds during a call are one bit per
    pulse, 1 for a pulse of at most [short_limit] samples and 0 for a
    longer one, in the order of the pulses; the only pulses that add no bit
    are, with start bits enabled, the first pulses of the frames. *)
Theorem pwm_bit_stream
    (debug_output : Z) (pulses : pulse_data) (device : protocol_state) :
  added_bits (trace (fst (pulse_demod_pwm_run debug_output pulses device)))
  = map (pwm_bit pulses device)
      (filter (fun n => negb (pwm_skipped pulses device n))
         (seq 0 (num_pulses pulses))).
Proof.
  unfold pulse_demod_pwm_run. rewrite for_pulses_after.
  induction (num_pulses pulses) as [|k IH]; [reflexivity|].
  rewrite after_pulses_S. unfold pwm_body at 1.
  rewrite added_bits_pwm_gap, added_bits_pwm_pulse, IH.
  rewrite seq_S, filter_app, map_app. simpl.
  destruct (pwm_skipped pulses device k); reflexivity.
Qed.

(** ** The ternary PWM demodulator without a sync band *)

Lemma in_trace_end_of_message o dbg who device s :
  In o (trace (end_of_message dbg who device s)) ->
  In o (trace s) \/ o = OpClear \/ o = OpPrint who (bits s) \/ o = OpCallback (bits s).
Proof.
  unfold end_of_message, do_debug_print, do_callback.
  destruct (callback device) as [cb|]; simpl;
    [destruct (negb (dbg =? 0) && _); simpl|];
    rewrite ?in_app_iff; simpl; intuition auto.
Qed.

Section TernaryWithoutSync.

Variable debug_output : Z.
Variable pulses : pulse_data.
Variable device : protocol_state.
Hypothesis Hn0 : sync_bit device <> 0.
Hypothesis Hn1 : sync_bit device <> 1.
Hypothesis Hn2 : sync_bit device <> 2.

Lemma ternary_pulse_without_sync n s :
  ternary_pulse pulses device n s
  = do_add_bit (negb (pulse_at pulses n <? to_unsigned (short_limit device))) s.
Proof.
  unfold ternary_pulse.
  apply Z.eqb_neq in Hn0, Hn1, Hn2. rewrite Hn0, Hn1, Hn2.
  case_tests; reflexivity.
Qed.

Lemma ternary_body_without_sync_rows n s :
  ~ In OpAddRow (trace s) ->
  ~ In OpAddRow (trace (ternary_body debug_output pulses device n s)).
Proof.
  intros Hs. unfold ternary_body, ternary_gap.
  rewrite ternary_pulse_without_sync.
  assert (Hbit : forall b, ~ In OpAddRow (trace (do_add_bit b s))).
  { intros b. unfold do_add_bit. simpl. rewrite in_app_iff. simpl.
    intros [H | [H | []]]; [exact (Hs H) | discriminate H]. }
  destruct (_ >? _); [|apply Hbit].
  intros H. apply in_trace_end_of_message in H.
  destruct H as [H | [H | [H | H]]]; try discriminate H.
  exact (Hbit _ H).
Qed.

Lemma ternary_body_without_sync_bits n s :
  added_bits (trace (ternary_body debug_output pulses device n s))
  = added_bits (trace s)
    ++ [negb (pulse_at pulses n <? to_unsigned (short_limit device))].
Proof.
  unfold ternary_body, ternary_gap. rewrite ternary_pulse_without_sync.
  destruct (_ >? _);
    rewrite ?added_bits_end_of_message, added_bits_add_bit; reflexivity.
Qed.

End TernaryWithoutSync.

(** X7.  With a sync selector other than 0, 1 and 2 the ternary PWM
    demodulator never starts a new row and adds exactly one bit per pulse:
    0 for a pulse below [short_limit] and 1 for every other pulse, whatever
    [long_limit] is. *)
Theorem ternary_without_sync
    (debug_output : Z) (pulses : pulse_data) (device : protocol_state) :
  sync_bit device <> 0 -> sync_bit device <> 1 -> sync_bit device <> 2 ->
  added_bits (trace (pulse_demod_pwm_ternary_run debug_output pulses device))
    = map (fun n => negb (pulse_at pulses n <? to_unsigned (short_limit device)))
        (seq 0 (num_pulses pulses))
  /\ ~ In OpAddRow (trace (pulse_demod_pwm_ternary_run debug_output pulses device)).
Proof.
  intros Hn0 Hn1 Hn2. unfold pulse_demod_pwm_ternary_run.
  rewrite for_pulses_after. split.
  - induction (num_pulses pulses) as [|k IH]; [reflexivity|].
    rewrite after_pulses_S, ternary_body_without_sync_bits by assumption.
    rewrite IH, seq_S, map_app. reflexivity.
  - apply (after_pulses_invariant (fun s => ~ In OpAddRow (trace s))).
    + intros n x. apply ternary_body_without_sync_rows; assumption.
    + simpl. intros [].
Qed.

(** Selector 3 and limits 10 / 20: pulses of 5, 15 and 25 samples give the
    bits 0, 1, 1 in one row. *)
Lemma ternary_without_sync_witness :
  added_bits (trace (pulse_demod_pwm_ternary_run 0
                       (train [(5, 5); (15, 5); (25, 5)]) (dev_10_20_30 3)))
  = [false; true; true].
Proof.
  assert (H0 : sync_bit (dev_10_20_30 3) <> 0) by (vm_compute; discriminate).
  assert (H1 : sync_bit (dev_10_20_30 3) <> 1) by (vm_compute; discriminate).
  assert (H2 : sync_bit (dev_10_20_30 3) <> 2) by (vm_compute; discriminate).
  destruct (ternary_without_sync 0 (train [(5, 5); (15, 5); (25, 5)])
              (dev_10_20_30 3) H0 H1 H2) as [Hbits _].
  rewrite Hbits. reflexivity.
Defined.

(** ** When the precise PWM demodulator leaves early *)

Section PreciseLeaves.

Variable debug_output : Z.
Variable pulses : pulse_data.
Variable device : protocol_state.
Variable p : PWM_Precise_Parameters.
Hypothesis Hshort : limit_ok (short_limit device).
Hypothesis Hlong : limit_ok (long_limit device).
Hypothesis Hsync : limit_ok (pulse_sync_width p).

Lemma precise_pulse_return_violation n s r s' :
  limit_ok (pulse_at pulses n) ->
  precise_pulse pulses device p n s = Return r s' ->
  timing_violation device p (pulse_at pulses n).
Proof.
  unfold limit_ok in *. intros Hx. unfold precise_pulse.
  rewrite !abs_diff_exact by lia.
  destruct (Z.ltb_spec (Z.abs (pulse_at pulses n - short_limit device))
              (pulse_tolerance p)) as [|Vs]; [discriminate|].
  destruct (Z.ltb_spec (Z.abs (pulse_at pulses n - long_limit device))
              (pulse_tolerance p)) as [|Vl]; [discriminate|].
  destruct (Z.eqb_spec (pulse_sync_width p) 0) as [Hz|Hnz]; simpl.
  - intros _. repeat split; try assumption. left. exact Hz.
  - destruct (Z.ltb_spec (Z.abs (pulse_at pulses n - pulse_sync_width p))
                (pulse_tolerance p)) as [|Vy]; [discriminate|].
    intros _. repeat split; try assumption. right. exact Vy.
Qed.

Lemma precise_loop_return_at ns : forall s r s',
  precise_loop debug_output pulses device p ns s = Return r s' ->
  exists n s0, In n ns /\ precise_pulse pulses device p n s0 = Return r s'.
Proof.
  induction ns as [|n ns IH]; intros s r s' H; simpl in H; [discriminate|].
  destruct (precise_body debug_output pulses device p n s) as [s1|r1 s1] eqn:E.
  - destruct (IH _ _ _ H) as (m & s0 & Hm & Hp).
    exists m, s0. split; [right; exact Hm | exact Hp].
  - inversion H; subst. exists n, s. split; [left; reflexivity|].
    unfold precise_body in E.
    destruct (precise_pulse pulses device p n s); [discriminate | exact E].
Qed.

Lemma precise_loop_leaves_at ns : forall n s,
  In n ns ->
  limit_ok (pulse_at pulses n) ->
  timing_violation device p (pulse_at pulses n) ->
  exists s', precise_loop debug_output pulses device p ns s = Return 0 s'.
Proof.
  induction ns as [|m ns IH]; intros n s Hin Hx Hv; [destruct Hin|].
  simpl. destruct (precise_body debug_output pulses device p m s) as [s1|r1 s1] eqn:E.
  - destruct Hin as [-> | Hin].
    + rewrite precise_pulse_violation in E by assumption. discriminate E.
    + apply (IH n s1 Hin Hx Hv).
  - exists s1. f_equal.
    apply (precise_loop_returns_zero debug_output pulses device p [m] s r1 s1).
    simpl. rewrite E. reflexivity.
Qed.

End PreciseLeaves.

(** X8.  For limits and pulses in the range of an [int], the precise PWM
    demodulator leaves the loop early, returning 0, exactly when some
    pulse of the train is outside the short band, outside the long band
    and outside the sync band (or no sync width is configured); otherwise
    every pulse is processed. *)
Theorem pwm_precise_leaves_iff_violation
    (debug_output : Z) (pulses : pulse_data) (device : protocol_state)
    (p : PWM_Precise_Parameters) :
  limit_ok (short_limit device) ->
  limit_ok (long_limit device) ->
  limit_ok (pulse_sync_width p) ->
  (forall n, (n < num_pulses pulses)%nat -> limit_ok (pulse_at pulses n)) ->
  (exists s, pulse_demod_pwm_precise_run debug_output pulses device p = Return 0 s)
  <-> (exists n, (n < num_pulses pulses)%nat
                 /\ timing_violation device p (pulse_at pulses n)).
Proof.
  intros Hs Hl Hy Hx. unfold pulse_demod_pwm_precise_run. split.
  - intros [s H]. apply precise_loop_return_at in H.
    destruct H as (n & s0 & Hin & Hp). apply in_seq in Hin.
    exists n. split; [lia|].
    eapply precise_pulse_return_violation; try eassumption. apply Hx. lia.
  - intros (n & Hn & Hv).
    apply (precise_loop_leaves_at debug_output pulses device p Hs Hl Hy _ n).
    + apply in_seq. lia.
    + apply Hx, Hn.
    + exact Hv.
Qed.

(** Pulses of 10, 20 and 11 samples all match a band of width 3 around 10
    or 20: the call does not leave early. *)
Lemma pwm_precise_leaves_iff_violation_witness :
  ~ exists n, (n < 3)%nat
      /\ timing_violation (dev_10_20_30 0) precise_3
           (pulse_at (train [(10, 5); (20, 5); (11, 40)]) n).
Proof.
  pose proof limit_ok_intro as Hl.
  pose (tr := train [(10, 5); (20, 5); (11, 40)]).
  assert (Hx : forall n, (n < num_pulses tr)%nat -> limit_ok (pulse_at tr n)).
  { intros n Hn. subst tr. simpl in Hn.
    destruct n as [|[|[|n]]]; [apply Hl; reflexivity .. | lia]. }
  intros Hv.
  apply (pwm_precise_leaves_iff_violation 0 (train [(10, 5); (20, 5); (11, 40)])
           (dev_10_20_30 0) precise_3 (Hl 10 eq_refl) (Hl 20 eq_refl)
           (Hl 0 eq_refl) Hx) in Hv.
  destruct Hv as [s Hs]. vm_compute in Hs. discriminate Hs.
Defined.

(** ** The elapsed time of the Manchester demodulator *)

Lemma to_unsigned_range z : 0 <= to_unsigned z < 2 ^ 32.
Proof. unfold to_unsigned. apply Z.mod_pos_bound. lia. Qed.

Lemma manchester_falling_edge_elapsed pulses device n st :
  0 <= snd (manchester_falling_edge pulses device n st) <= manchester_threshold device.
Proof.
  destruct st as [s t]. unfold manchester_falling_edge.
  pose proof (to_unsigned_range (short_limit device + Z.shiftr (short_limit device) 1))
    as Hthr. fold (manchester_threshold device) in Hthr.
  destruct (Z.gtb_spec (uadd (pulse_at pulses n) t) (manchester_threshold device))
    as [Hgt | Hle]; simpl.
  - lia.
  - unfold uadd in *. rewrite (Z.add_comm t).
    pose proof (to_unsigned_range (pulse_at pulses n + t)). lia.
Qed.

Lemma manchester_rising_edge_elapsed dbg pulses device n st :
  0 <= snd (manchester_rising_edge dbg pulses device n st) <= manchester_threshold device.
Proof.
  destruct st as [s t]. unfold manchester_rising_edge.
  pose proof (to_unsigned_range (short_limit device + Z.shiftr (short_limit device) 1))
    as Hthr. fold (manchester_threshold device) in Hthr.
  destruct (gap_at pulses n >? to_unsigned (reset_limit device)); simpl; [lia|].
  destruct (Z.gtb_spec (uadd (gap_at pulses n) t) (manchester_threshold device))
    as [Hgt | Hle]; simpl.
  - lia.
  - unfold uadd in *. rewrite (Z.add_comm t).
    pose proof (to_unsigned_range (gap_at pulses n + t)). lia.
Qed.

(** X9.  In the Manchester demodulator [time_since_last] never exceeds the
    threshold [short_limit + (short_limit >> 1)]: after every edge of every
    iteration it lies between 0 and the threshold, for every pulse train
    and every limits. *)
Theorem manchester_elapsed_time_bounded
    (debug_output : Z) (pulses : pulse_data) (device : protocol_state) (k : nat) :
  let st := after_pulses (manchester_body debug_output pulses device) k
              manchester_init in
  0 <= snd st <= manchester_threshold device
  /\ 0 <= snd (manchester_falling_edge pulses device k st)
       <= manchester_threshold device.
Proof.
  intros st. split; [|apply manchester_falling_edge_elapsed].
  subst st. destruct k as [|k].
  - simpl.
    pose proof (to_unsigned_range (short_limit device + Z.shiftr (short_limit device) 1))
      as Hthr. fold (manchester_threshold device) in Hthr. lia.
  - rewrite after_pulses_S. unfold manchester_body.
    apply manchester_rising_edge_elapsed.
Qed.

(** ** The frames of the PCM demodulator *)

Lemma add_bit_one_row r b : add_bit [r] b = [r ++ [b]].
Proof. reflexivity. Qed.

Lemma add_run_one_row b k s :
  (exists r, bits s = [r]) -> exists r, bits (add_run b k s) = [r].
Proof.
  intros H. unfold add_run. induction (Z.to_nat k) as [|m IH]; simpl; [exact H|].
  destruct IH as [r Hr]. rewrite Hr. eexists. apply add_bit_one_row.
Qed.

Lemma callback_frames_add_run b k s :
  callback_frames (trace (add_run b k s)) = callback_frames (trace s).
Proof.
  rewrite trace_add_run, callback_frames_app, callback_frames_repeat_bit.
  apply app_nil_r.
Qed.

Lemma callback_frames_end_of_message dbg who device s :
  callback_frames (trace (end_of_message dbg who device s))
  = callback_frames (trace s)
    ++ match callback device with Some _ => [bits s] | None => [] end.
Proof.
  unfold end_of_message, do_debug_print, do_callback.
  destruct (callback device) as [cb|]; simpl;
    [destruct (negb (dbg =? 0) && _); simpl|];
    rewrite !callback_frames_app; simpl; rewrite ?app_nil_r; reflexivity.
Qed.

Lemma pcm_validate_state dbg pulses device n s :
  (exists r, bits s = [r]) ->
  (exists r, bits (pcm_validate dbg pulses device n s) = [r])
  /\ callback_frames (trace (pcm_validate dbg pulses device n s))
     = callback_frames (trace s).
Proof.
  intros H. unfold pcm_validate.
  destruct (pcm_corrupt pulses device n); [|split; [exact H | reflexivity]].
  split; [exists []; reflexivity|].
  destruct (dbg >? 3); simpl; rewrite !callback_frames_app; simpl;
    rewrite ?app_nil_r; reflexivity.
Qed.

Lemma pcm_body_frames dbg pulses device n s :
  (exists r, bits s = [r]) ->
  forallb one_nonempty_row (callback_frames (trace s)) = true ->
  (exists r, bits (pcm_body dbg pulses device n s) = [r])
  /\ forallb one_nonempty_row
       (callback_frames (trace (pcm_body dbg pulses device n s))) = true.
Proof.
  intros Hrow Hframes. unfold pcm_body.
  set (s1 := pcm_emit pulses device n s).
  assert (H1 : (exists r, bits s1 = [r])
               /\ callback_frames (trace s1) = callback_frames (trace s)).
  { subst s1. unfold pcm_emit. split.
    - apply add_run_one_row, add_run_one_row, Hrow.
    - rewrite !callback_frames_add_run. reflexivity. }
  destruct H1 as [Hrow1 Hf1].
  destruct (pcm_validate_state dbg pulses device n s1 Hrow1) as [Hrow2 Hf2].
  set (s2 := pcm_validate dbg pulses device n s1) in *.
  unfold pcm_end.
  destruct (pcm_end_condition pulses device n); simpl;
    [|split; [exact Hrow2 | rewrite Hf2, Hf1; exact Hframes]].
  destruct (Z.gtb_spec (bits_per_row (bits s2) 0) 0) as [Hpos | Hzero].
  - split; [exists []; reflexivity|].
    rewrite callback_frames_end_of_message, forallb_app, Hf2, Hf1, Hframes.
    destruct (callback device); [|reflexivity].
    destruct Hrow2 as [r Hr]. rewrite Hr in *. unfold bits_per_row in Hpos.
    simpl in *. destruct r; [simpl in Hpos; lia | reflexivity].
  - split; [exact Hrow2 | rewrite Hf2, Hf1; exact Hframes].
Qed.

(** The loop of the PCM demodulator ends with an empty bit buffer and has
    reported frames of one non-empty row only. *)
Lemma pcm_loop_frames_and_final_buffer
    (debug_output : Z) (pulses : pulse_data) (device : protocol_state) :
  let s := for_pulses pulses (pcm_body debug_output pulses device) init in
  bits s = empty
  /\ forallb one_nonempty_row (callback_frames (trace s)) = true.
Proof.
  intros s.
  assert (Hinv : forall k,
    (exists r, bits (after_pulses (pcm_body debug_output pulses device) k init) = [r])
    /\ forallb one_nonempty_row
         (callback_frames
            (trace (after_pulses (pcm_body debug_output pulses device) k init))) = true).
  { intros k.
    apply (after_pulses_invariant
             (fun x => (exists r, bits x = [r])
                       /\ forallb one_nonempty_row (callback_frames (trace x)) = true)).
    - intros n x [Hr Hf]. apply pcm_body_frames; assumption.
    - split; [exists []; reflexivity | reflexivity]. }
  subst s. rewrite for_pulses_after. split; [|apply Hinv].
  destruct (num_pulses pulses) as [|k] eqn:Hnum; [reflexivity|].
  rewrite after_pulses_S.
  destruct (Hinv k) as [Hrow _].
  set (s0 := after_pulses (pcm_body debug_output pulses device) k init) in *.
  unfold pcm_body.
  destruct (pcm_validate_state debug_output pulses device k
              (pcm_emit pulses device k s0)) as [[r Hr] _].
  { unfold pcm_emit. apply add_run_one_row, add_run_one_row, Hrow. }
  unfold pcm_end, pcm_end_condition. rewrite Hnum.
  replace (k =? S k - 1)%nat with true by (symmetry; apply Nat.eqb_eq; lia).
  simpl orb. cbn [andb].
  destruct (Z.gtb_spec (bits_per_row (bits (pcm_validate debug_output pulses device k
                                             (pcm_emit pulses device k s0))) 0) 0)
    as [Hpos | Hzero].
  - reflexivity.
  - rewrite Hr in *. unfold bits_per_row in Hzero. simpl in Hzero.
    destruct r; [reflexivity | simpl in Hzero; lia].
Qed.

(** X10.  When the PCM demodulator returns, it has handed the callback
    only frames of exactly one row that holds at least one bit, and it
    leaves the bit buffer empty: every bit was reported or discarded. *)
Theorem pcm_frames_and_final_buffer
    (debug_output : Z) (pulses : pulse_data) (device : protocol_state)
    (s : dstate) :
  pulse_demod_pcm_run debug_output pulses device = Some s ->
  bits s = empty
  /\ forallb one_nonempty_row (callback_frames (trace s)) = true.
Proof.
  unfold pulse_demod_pcm_run.
  destruct (pcm_defined pulses device); [|discriminate].
  intros H. inversion H; subst s.
  apply pcm_loop_frames_and_final_buffer.
Qed.

(** Two good pulses, a corrupt one and a last good one: two frames are
    reported, of one row each, and nothing stays in the bit buffer. *)
Lemma pcm_frames_and_final_buffer_witness :
  let s := for_pulses (train [(10, 10); (10, 40); (30, 10); (10, 10)])
             (pcm_body 0 (train [(10, 10); (10, 40); (30, 10); (10, 10)])
                (dev_10_20_30 0)) init in
  callback_frames (trace s) = [[[true; true; false]]; [[true]]]
  /\ bits s = empty
  /\ forallb one_nonempty_row (callback_frames (trace s)) = true.
Proof.
  intros s.
  destruct (pcm_frames_and_final_buffer 0
              (train [(10, 10); (10, 40); (30, 10); (10, 10)]) (dev_10_20_30 0) s
              eq_refl) as [Hbits Hframes].
  split; [reflexivity|]. split; [exact Hbits | exact Hframes].
Defined.

(** ** No bit is lost *)

Lemma concat_add_bit bs b : concat (add_bit bs b) = concat bs ++ [b].
Proof.
  induction bs as [|r rest IH]; [reflexivity|].
  destruct rest as [|r' rest'].
  - simpl. rewrite !app_nil_r. reflexivity.
  - change (add_bit (r :: r' :: rest') b) with (r :: add_bit (r' :: rest') b).
    change (concat (r :: add_bit (r' :: rest') b))
      with (r ++ concat (add_bit (r' :: rest') b)).
    rewrite IH. change (concat (r :: r' :: rest')) with (r ++ concat (r' :: rest')).
    apply app_assoc.
Qed.

Lemma concat_add_row bs : concat (add_row bs) = concat bs.
Proof. unfold add_row. rewrite concat_app. simpl. apply app_nil_r. Qed.

Lemma delivered_bits_app t u :
  delivered_bits (t ++ u) = delivered_bits t ++ delivered_bits u.
Proof.
  unfold delivered_bits. rewrite callback_frames_app, map_app, concat_app.
  reflexivity.
Qed.

Lemma nothing_lost_add_bit b s : nothing_lost s -> nothing_lost (do_add_bit b s).
Proof.
  unfold nothing_lost, pending_bits. intros H.
  rewrite added_bits_add_bit, <- H. unfold do_add_bit. simpl.
  rewrite delivered_bits_app, concat_add_bit. unfold delivered_bits at 2. simpl.
  rewrite app_nil_r, app_assoc. reflexivity.
Qed.

Lemma nothing_lost_add_row s : nothing_lost s -> nothing_lost (do_add_row s).
Proof.
  unfold nothing_lost, pending_bits. intros H.
  rewrite added_bits_add_row, <- H. unfold do_add_row. simpl.
  rewrite delivered_bits_app, concat_add_row. unfold delivered_bits at 2. simpl.
  rewrite app_nil_r. reflexivity.
Qed.

Lemma nothing_lost_end_of_message dbg who device cb s :
  callback device = Some cb ->
  nothing_lost s -> nothing_lost (end_of_message dbg who device s).
Proof.
  unfold nothing_lost, pending_bits. intros Hcb H.
  rewrite added_bits_end_of_message, <- H.
  unfold delivered_bits. rewrite callback_frames_end_of_message, Hcb.
  rewrite map_app, concat_app. simpl. rewrite !app_nil_r. reflexivity.
Qed.

Lemma nothing_lost_add_run b k s : nothing_lost s -> nothing_lost (add_run b k s).
Proof.
  intros H. unfold add_run. induction (Z.to_nat k) as [|m IH]; simpl.
  - exact H.
  - apply nothing_lost_add_bit, IH.
Qed.

Create HintDb nothing_lost.

#[local] Hint Resolve nothing_lost_add_bit nothing_lost_add_row
  nothing_lost_end_of_message nothing_lost_add_run : nothing_lost.

Section NothingLost.

Variable debug_output : Z.
Variable pulses : pulse_data.
Variable device : protocol_state.
Variable cb : bitbuffer -> Z.
Hypothesis Hcb : callback device = Some cb.

Lemma nothing_lost_ppm_body n s :
  nothing_lost s -> nothing_lost (ppm_body debug_output pulses device n s).
Proof.
  intros H. unfold ppm_body. case_tests; eauto with nothing_lost.
Qed.

Lemma nothing_lost_pwm_body n st :
  nothing_lost (fst st) ->
  nothing_lost (fst (pwm_body debug_output pulses device n st)).
Proof.
  destruct st as [s d]. simpl. intros H. unfold pwm_body, pwm_gap, pwm_pulse.
  case_tests; cbn [fst]; eauto with nothing_lost.
Qed.

Lemma nothing_lost_ternary_body n s :
  nothing_lost s -> nothing_lost (ternary_body debug_output pulses device n s).
Proof.
  intros H. unfold ternary_body, ternary_gap, ternary_pulse.
  case_tests; eauto with nothing_lost.
Qed.

Lemma nothing_lost_manchester_body n st :
  nothing_lost (fst st) ->
  nothing_lost (fst (manchester_body debug_output pulses device n st)).
Proof.
  destruct st as [s t]. simpl. intros H.
  unfold manchester_body, manchester_rising_edge, manchester_falling_edge.
  case_tests; cbn [fst]; eauto 6 with nothing_lost.
Qed.

Lemma nothing_lost_precise_loop p ns : forall s,
  nothing_lost s ->
  nothing_lost (outcome_state (precise_loop debug_output pulses device p ns s)).
Proof.
  induction ns as [|n ns IH]; intros s H; simpl; [exact H|].
  unfold precise_body, precise_pulse, precise_gap.
  case_tests; try apply IH; cbn [outcome_state]; eauto with nothing_lost.
Qed.

(** Non-return-to-zero coding: no pulse is taken as corrupt. *)
Lemma nothing_lost_pcm_body_nrz n s :
  short_limit device = long_limit device ->
  nothing_lost s -> nothing_lost (pcm_body debug_output pulses device n s).
Proof.
  intros Hnrz H. unfold pcm_body, pcm_end, pcm_validate, pcm_corrupt, pcm_emit.
  rewrite Hnrz, Z.eqb_refl. simpl.
  case_tests; eauto with nothing_lost.
Qed.

End NothingLost.

(** X11.  With a registered callback, the PPM, PWM, ternary PWM,
    Manchester and precise PWM demodulators lose no bit: at the end of the
    call the bits of the frames handed to the callback, followed by the
    bits still in the bit buffer, are exactly the bits that were added, in
    the same order.  (Only the PCM demodulator discards bits.) *)
Theorem no_bit_is_lost
    (debug_output : Z) (pulses : pulse_data) (device : protocol_state)
    (p : PWM_Precise_Parameters) (cb : bitbuffer -> Z) :
  callback device = Some cb ->
  nothing_lost (pulse_demod_ppm_run debug_output pulses device)
  /\ nothing_lost (fst (pulse_demod_pwm_run debug_output pulses device))
  /\ nothing_lost (pulse_demod_pwm_ternary_run debug_output pulses device)
  /\ nothing_lost (fst (pulse_demod_manchester_zerobit_run debug_output pulses device))
  /\ nothing_lost (outcome_state
                     (pulse_demod_pwm_precise_run debug_output pulses device p)).
Proof.
  intros Hcb.
  assert (Hinit : nothing_lost init) by reflexivity.
  split; [|split; [|split; [|split]]].
  - unfold pulse_demod_ppm_run. rewrite for_pulses_after.
    apply (after_pulses_invariant nothing_lost); [|exact Hinit].
    intros n x. eapply nothing_lost_ppm_body, Hcb.
  - unfold pulse_demod_pwm_run. rewrite for_pulses_after.
    apply (after_pulses_invariant (fun st => nothing_lost (fst st))); [|exact Hinit].
    intros n x. eapply nothing_lost_pwm_body, Hcb.
  - unfold pulse_demod_pwm_ternary_run. rewrite for_pulses_after.
    apply (after_pulses_invariant nothing_lost); [|exact Hinit].
    intros n x. eapply nothing_lost_ternary_body, Hcb.
  - unfold pulse_demod_manchester_zerobit_run. rewrite for_pulses_after.
    apply (after_pulses_invariant (fun st => nothing_lost (fst st))).
    + intros n x. eapply nothing_lost_manchester_body, Hcb.
    + unfold manchester_init. simpl. apply nothing_lost_add_bit, Hinit.
  - unfold pulse_demod_pwm_precise_run.
    eapply nothing_lost_precise_loop; [exact Hcb | exact Hinit].
Qed.

(** A PWM train of two rows and a message, then two more pulses: three
    bits are delivered and two are still in the bit buffer. *)
Lemma no_bit_is_lost_witness :
  let s := fst (pulse_demod_pwm_run 0
                  (train [(5, 5); (15, 25); (5, 40); (15, 5); (5, 5)])
                  (dev_10_20_30 0)) in
  delivered_bits (trace s) = [true; false; true]
  /\ pending_bits s = [false; true]
  /\ added_bits (trace s) = [true; false; true; false; true].
Proof.
  intros s.
  destruct (no_bit_is_lost 0 (train [(5, 5); (15, 25); (5, 40); (15, 5); (5, 5)])
              (dev_10_20_30 0) precise_3 one_per_frame eq_refl)
    as (_ & Hpwm & _).
  fold s in Hpwm. unfold nothing_lost in Hpwm.
  assert (Hd : delivered_bits (trace s) = [true; false; true]) by reflexivity.
  assert (Hp : pending_bits s = [false; true]) by reflexivity.
  split; [exact Hd|]. split; [exact Hp|].
  rewrite <- Hpwm, Hd, Hp. reflexivity.
Defined.

(** X12.  In non-return-to-zero coding ([short_limit = long_limit]) with a
    registered callback, the PCM demodulator delivers every bit it adds:
    when it returns, the bits of the frames handed to the callback are
    exactly the bits that were added, in the same order. *)
Theorem pcm_nrz_delivers_every_bit
    (debug_output : Z) (pulses : pulse_data) (device : protocol_state)
    (cb : bitbuffer -> Z) (s : dstate) :
  callback device = Some cb ->
  short_limit device = long_limit device ->
  pulse_demod_pcm_run debug_output pulses device = Some s ->
  delivered_bits (trace s) = added_bits (trace s).
Proof.
  intros Hcb Hnrz. unfold pulse_demod_pcm_run.
  destruct (pcm_defined pulses device); [|discriminate].
  intros H. inversion H; subst s.
  assert (Hlost : nothing_lost (for_pulses pulses (pcm_body debug_output pulses device) init)).
  { rewrite for_pulses_after.
    apply (after_pulses_invariant nothing_lost); [|reflexivity].
    intros n x. eapply nothing_lost_pcm_body_nrz; eassumption. }
  destruct (pcm_loop_frames_and_final_buffer debug_output pulses device) as [Hempty _].
  unfold nothing_lost, pending_bits in Hlost. rewrite Hempty in Hlost.
  simpl in Hlost. rewrite app_nil_r in Hlost. exact Hlost.
Qed.

(** Bit period 10: pulses of 30 and 10 samples with gaps of 20 and 40. *)
Lemma pcm_nrz_delivers_every_bit_witness :
  let dev := {| callback := Some one_per_frame; short_limit := 10;
                long_limit := 10; reset_limit := 30; name := "nrz"%string;
                demod_arg := 0 |} in
  let s := for_pulses (train [(30, 20); (10, 40)])
             (pcm_body 0 (train [(30, 20); (10, 40)]) dev) init in
  added_bits (trace s) = [true; true; true; false; false; true; false; false; false]
  /\ delivered_bits (trace s) = added_bits (trace s).
Proof.
  intros dev s. split; [reflexivity|].
  apply (pcm_nrz_delivers_every_bit 0 (train [(30, 20); (10, 40)]) dev
           one_per_frame s eq_refl eq_refl eq_refl).
Defined.

(** ** At most one frame per pulse *)

Lemma frames_add_bit b s :
  callback_frames (trace (do_add_bit b s)) = callback_frames (trace s).
Proof.
  unfold do_add_bit. simpl. rewrite callback_frames_app. apply app_nil_r.
Qed.

Lemma frames_add_row s :
  callback_frames (trace (do_add_row s)) = callback_frames (trace s).
Proof.
  unfold do_add_row. simpl. rewrite callback_frames_app. apply app_nil_r.
Qed.

Lemma frames_end_of_message_le dbg who device s :
  (List.length (callback_frames (trace (end_of_message dbg who device s)))
   <= S (List.length (callback_frames (trace s))))%nat.
Proof.
  rewrite callback_frames_end_of_message, length_app.
  destruct (callback device); simpl; lia.
Qed.

Lemma frames_pcm_validate dbg pulses device n s :
  callback_frames (trace (pcm_validate dbg pulses device n s))
  = callback_frames (trace s).
Proof.
  unfold pcm_validate. destruct (pcm_corrupt pulses device n); [|reflexivity].
  destruct (dbg >? 3); simpl; rewrite !callback_frames_app; simpl;
    rewrite ?app_nil_r; reflexivity.
Qed.

Lemma after_pulses_bounded {A : Type} (m : A -> nat) (body : nat -> A -> A) s :
  (forall n x, (m (body n x) <= S (m x))%nat) ->
  forall k, (m (after_pulses body k s) <= m s + k)%nat.
Proof.
  intros Hstep k. induction k as [|k IH].
  - unfold after_pulses. simpl. lia.
  - rewrite after_pulses_S. specialize (Hstep k (after_pulses body k s)). lia.
Qed.

(** One more frame at most, whatever was added before the end of message. *)
Ltac one_frame_more :=
  rewrite ?frames_add_bit, ?frames_add_row;
  try (eapply Nat.le_trans; [apply frames_end_of_message_le|]);
  rewrite ?frames_add_bit, ?frames_add_row; lia.

Section FramesPerPulse.

Variable debug_output : Z.
Variable pulses : pulse_data.
Variable device : protocol_state.

Lemma frames_pcm_body n s :
  (List.length (callback_frames (trace (pcm_body debug_output pulses device n s)))
   <= S (List.length (callback_frames (trace s))))%nat.
Proof.
  unfold pcm_body, pcm_end.
  assert (H : callback_frames
                (trace (pcm_validate debug_output pulses device n
                          (pcm_emit pulses device n s)))
              = callback_frames (trace s)).
  { rewrite frames_pcm_validate. unfold pcm_emit.
    rewrite !callback_frames_add_run. reflexivity. }
  destruct (_ && _).
  - eapply Nat.le_trans; [apply frames_end_of_message_le|]. rewrite H. lia.
  - rewrite H. lia.
Qed.

Lemma frames_ppm_body n s :
  (List.length (callback_frames (trace (ppm_body debug_output pulses device n s)))
   <= S (List.length (callback_frames (trace s))))%nat.
Proof. unfold ppm_body. case_tests; one_frame_more. Qed.

Lemma frames_pwm_body n st :
  (List.length (callback_frames (trace (fst (pwm_body debug_output pulses device n st))))
   <= S (List.length (callback_frames (trace (fst st)))))%nat.
Proof.
  destruct st as [s d]. unfold pwm_body, pwm_gap, pwm_pulse.
  case_tests; cbn [fst]; one_frame_more.
Qed.

Lemma frames_ternary_body n s :
  (List.length (callback_frames (trace (ternary_body debug_output pulses device n s)))
   <= S (List.length (callback_frames (trace s))))%nat.
Proof.
  unfold ternary_body, ternary_gap, ternary_pulse. case_tests; one_frame_more.
Qed.

Lemma frames_manchester_body n st :
  (List.length
     (callback_frames (trace (fst (manchester_body debug_output pulses device n st))))
   <= S (List.length (callback_frames (trace (fst st)))))%nat.
Proof.
  destruct st as [s t].
  unfold manchester_body, manchester_rising_edge, manchester_falling_edge.
  case_tests; cbn [fst]; one_frame_more.
Qed.

Lemma frames_precise_loop p ns : forall s,
  (List.length
     (callback_frames
        (trace (outcome_state (precise_loop debug_output pulses device p ns s))))
   <= List.length (callback_frames (trace s)) + List.length ns)%nat.
Proof.
  induction ns as [|n ns IH]; intros s; simpl; [lia|].
  assert (Hbody :
    (List.length
       (callback_frames
          (trace (outcome_state (precise_body debug_output pulses device p n s))))
     <= S (List.length (callback_frames (trace s))))%nat).
  { unfold precise_body, precise_pulse, precise_gap.
    case_tests; cbn [outcome_state]; one_frame_more. }
  destruct (precise_body debug_output pulses device p n s) as [s1|r s1];
    simpl in Hbody.
  - specialize (IH s1). lia.
  - simpl. lia.
Qed.

End FramesPerPulse.

(** X13.  Every demodulator hands the callback at most one frame per
    pulse: the number of callback calls of a call never exceeds
    [num_pulses]. *)
Theorem at_most_one_frame_per_pulse
    (debug_output : Z) (pulses : pulse_data) (device : protocol_state)
    (p : PWM_Precise_Parameters) :
  let frames s := List.length (callback_frames (trace s)) in
  (frames (for_pulses pulses (pcm_body debug_output pulses device) init)
   <= num_pulses pulses)%nat
  /\ (frames (pulse_demod_ppm_run debug_output pulses device) <= num_pulses pulses)%nat
  /\ (frames (fst (pulse_demod_pwm_run debug_output pulses device))
      <= num_pulses pulses)%nat
  /\ (frames (pulse_demod_pwm_ternary_run debug_output pulses device)
      <= num_pulses pulses)%nat
  /\ (frames (fst (pulse_demod_manchester_zerobit_run debug_output pulses device))
      <= num_pulses pulses)%nat
  /\ (frames (outcome_state (pulse_demod_pwm_precise_run debug_output pulses device p))
      <= num_pulses pulses)%nat.
Proof.
  intros frames. subst frames. cbv beta.
  split; [|split; [|split; [|split; [|split]]]].
  - rewrite for_pulses_after.
    apply (after_pulses_bounded (fun s => List.length (callback_frames (trace s)))).
    intros n x. apply frames_pcm_body.
  - unfold pulse_demod_ppm_run. rewrite for_pulses_after.
    apply (after_pulses_bounded (fun s => List.length (callback_frames (trace s)))).
    intros n x. apply frames_ppm_body.
  - unfold pulse_demod_pwm_run. rewrite for_pulses_after.
    apply (after_pulses_bounded
             (fun st => List.length (callback_frames (trace (fst st))))).
    intros n x. apply frames_pwm_body.
  - unfold pulse_demod_pwm_ternary_run. rewrite for_pulses_after.
    apply (after_pulses_bounded (fun s => List.length (callback_frames (trace s)))).
    intros n x. apply frames_ternary_body.
  - unfold pulse_demod_manchester_zerobit_run. rewrite for_pulses_after.
    apply (after_pulses_bounded
             (fun st => List.length (callback_frames (trace (fst st))))).
    intros n x. apply frames_manchester_body.
  - unfold pulse_demod_pwm_precise_run.
    pose proof (frames_precise_loop debug_output pulses device p
                  (seq 0 (num_pulses pulses)) init) as H.
    rewrite length_seq in H. exact H.
Qed.

(** ** A long last gap flushes the bit buffer *)

Lemma delivered_all s :
  nothing_lost s -> bits s = empty -> delivered_bits (trace s) = added_bits (trace s).
Proof.
  unfold nothing_lost, pending_bits. intros H Hb. rewrite Hb in H.
  simpl in H. rewrite app_nil_r in H. exact H.
Qed.

Lemma bits_end_of_message dbg who device s :
  bits (end_of_message dbg who device s) = empty.
Proof. reflexivity. Qed.

(** X14.  With a registered callback, when the gap after the last pulse
    exceeds [reset_limit], the PWM, ternary PWM and (unless it left early)
    precise PWM demodulators end with an empty bit buffer and have handed
    every bit they added to the callback; the Manchester demodulator ends
    with the hard-coded zero of the next message as its only pending
    bit. *)
Theorem long_last_gap_flushes
    (debug_output : Z) (pulses : pulse_data) (device : protocol_state)
    (p : PWM_Precise_Parameters) (cb : bitbuffer -> Z) (k : nat) :
  callback device = Some cb ->
  limit_ok (reset_limit device) ->
  num_pulses pulses = S k ->
  reset_limit device < gap_at pulses k ->
  (let s := fst (pulse_demod_pwm_run debug_output pulses device) in
   bits s = empty /\ delivered_bits (trace s) = added_bits (trace s))
  /\ (let s := pulse_demod_pwm_ternary_run debug_output pulses device in
      bits s = empty /\ delivered_bits (trace s) = added_bits (trace s))
  /\ (forall s,
      pulse_demod_pwm_precise_run debug_output pulses device p = Continue s ->
      bits s = empty /\ delivered_bits (trace s) = added_bits (trace s))
  /\ (let s := fst (pulse_demod_manchester_zerobit_run debug_output pulses device) in
      bits s = [[false]]
      /\ delivered_bits (trace s) ++ [false] = added_bits (trace s)).
Proof.
  intros Hcb Hr Hnum Hgap.
  pose proof (gt_unsigned_limit _ _ Hr Hgap) as Hgt.
  split; [|split; [|split]].
  - assert (Hb : bits (fst (pulse_demod_pwm_run debug_output pulses device)) = empty).
    { unfold pulse_demod_pwm_run. rewrite for_pulses_after, Hnum, after_pulses_S.
      unfold pwm_body at 1.
      destruct (pwm_pulse pulses device k _) as [s1 d1].
      unfold pwm_gap. rewrite Hgt. reflexivity. }
    split; [exact Hb|]. apply delivered_all; [|exact Hb].
    unfold pulse_demod_pwm_run. rewrite for_pulses_after.
    apply (after_pulses_invariant (fun st => nothing_lost (fst st))); [|reflexivity].
    intros n x. eapply nothing_lost_pwm_body, Hcb.
  - assert (Hb : bits (pulse_demod_pwm_ternary_run debug_output pulses device) = empty).
    { unfold pulse_demod_pwm_ternary_run.
      rewrite for_pulses_after, Hnum, after_pulses_S.
      unfold ternary_body at 1, ternary_gap. rewrite Hgt. reflexivity. }
    split; [exact Hb|]. apply delivered_all; [|exact Hb].
    unfold pulse_demod_pwm_ternary_run. rewrite for_pulses_after.
    apply (after_pulses_invariant nothing_lost); [|reflexivity].
    intros n x. eapply nothing_lost_ternary_body, Hcb.
  - intros s Hrun.
    assert (Hlost : nothing_lost s).
    { pose proof (nothing_lost_precise_loop debug_output pulses device cb Hcb p
                    (seq 0 (num_pulses pulses)) init eq_refl) as H.
      fold (pulse_demod_pwm_precise_run debug_output pulses device p) in H.
      rewrite Hrun in H. exact H. }
    assert (Hb : bits s = empty).
    { unfold pulse_demod_pwm_precise_run in Hrun.
      rewrite Hnum, seq_S, precise_loop_app in Hrun. simpl in Hrun.
      destruct (precise_loop debug_output pulses device p (seq 0 k) init)
        as [s1|r1 s1]; [|discriminate].
      unfold precise_body in Hrun.
      destruct (precise_pulse pulses device p k s1) as [s2|r2 s2]; [|discriminate].
      inversion Hrun; subst s. unfold precise_gap. rewrite Hgt. reflexivity. }
    split; [exact Hb | apply delivered_all; assumption].
  - assert (Hb : bits (fst (pulse_demod_manchester_zerobit_run debug_output pulses device))
                 = [[false]]).
    { unfold pulse_demod_manchester_zerobit_run.
      rewrite for_pulses_after, Hnum, after_pulses_S.
      unfold manchester_body at 1.
      destruct (manchester_falling_edge pulses device k _) as [s1 t1].
      unfold manchester_rising_edge. rewrite Hgt. reflexivity. }
    split; [exact Hb|].
    assert (Hlost : nothing_lost
                      (fst (pulse_demod_manchester_zerobit_run debug_output pulses device))).
    { unfold pulse_demod_manchester_zerobit_run. rewrite for_pulses_after.
      apply (after_pulses_invariant (fun st => nothing_lost (fst st))).
      - intros n x. eapply nothing_lost_manchester_body, Hcb.
      - unfold manchester_init. simpl. apply nothing_lost_add_bit. reflexivity. }
    unfold nothing_lost, pending_bits in Hlost. rewrite Hb in Hlost. exact Hlost.
Qed.

(** Three PWM pulses, the last one followed by 40 samples of silence. *)
Lemma long_last_gap_flushes_witness :
  let s := fst (pulse_demod_pwm_run 0 (train [(5, 5); (15, 25); (5, 40)])
                  (dev_10_20_30 0)) in
  bits s = empty /\ delivered_bits (trace s) = [true; false; true].
Proof.
  intros s.
  assert (Hgap : reset_limit (dev_10_20_30 0)
                 < gap_at (train [(5, 5); (15, 25); (5, 40)]) 2)
    by (vm_compute; reflexivity).
  destruct (long_last_gap_flushes 0 (train [(5, 5); (15, 25); (5, 40)])
              (dev_10_20_30 0) precise_3 one_per_frame 2 eq_refl
              (limit_ok_intro 30 eq_refl) eq_refl Hgap)
    as ((Hb & Hd) & _).
  fold s in Hb, Hd. split; [exact Hb|]. rewrite Hd. reflexivity.
Defined.

(** ** Decoding goes on from what was decoded *)

Lemma fold_left_invariant {A : Type} (P : A -> Prop) (body : nat -> A -> A) ns :
  (forall n x, P x -> P (body n x)) ->
  forall s, P s -> P (fold_left (fun acc n => body n acc) ns s).
Proof.
  intros Hstep. induction ns as [|n ns IH]; intros s Hs; simpl.
  - exact Hs.
  - apply IH, Hstep, Hs.
Qed.

Lemma extends_refl s : extends (trace s) s.
Proof. exists []. rewrite app_nil_r. reflexivity. Qed.

Lemma extends_log t o s : extends t s -> extends t (do_log o s).
Proof.
  intros [ops H]. exists (ops ++ [o]). unfold do_log. simpl.
  rewrite H, app_assoc. reflexivity.
Qed.

Lemma extends_add_bit t b s : extends t s -> extends t (do_add_bit b s).
Proof. apply (extends_log t (OpAddBit b)). Qed.

Lemma extends_add_row t s : extends t s -> extends t (do_add_row s).
Proof. apply (extends_log t OpAddRow). Qed.

Lemma extends_end_of_message t dbg who device s :
  extends t s -> extends t (end_of_message dbg who device s).
Proof.
  intros H. unfold end_of_message.
  apply (extends_log t OpClear
           (do_debug_print dbg who device (do_callback device s))).
  unfold do_debug_print.
  assert (Hc : extends t (do_callback device s)).
  { unfold do_callback. destruct (callback device) as [cb|]; [|exact H].
    destruct H as [ops H]. exists (ops ++ [OpCallback (bits s)]). simpl.
    rewrite H, app_assoc. reflexivity. }
  destruct (match callback device with None => true | Some _ => _ end);
    [apply extends_log|]; exact Hc.
Qed.

Create HintDb extends.

#[local] Hint Resolve extends_add_bit extends_add_row extends_end_of_message
  : extends.

Section Incremental.

Variable debug_output : Z.
Variable device : protocol_state.
Variables pre post : list (Z * Z).

Lemma train_prefix_reads n :
  (n < List.length pre)%nat ->
  pulse_at (train (pre ++ post)) n = pulse_at (train pre) n
  /\ gap_at (train (pre ++ post)) n = gap_at (train pre) n.
Proof.
  intros H. split; [apply pulse_at_train_prefix | apply gap_at_train_prefix]; exact H.
Qed.

Lemma train_prefix_length :
  (List.length pre <= num_pulses (train (pre ++ post)))%nat.
Proof. simpl. rewrite length_app. lia. Qed.

Lemma ppm_incremental :
  extends (trace (pulse_demod_ppm_run debug_output (train pre) device))
          (pulse_demod_ppm_run debug_output (train (pre ++ post)) device).
Proof.
  unfold pulse_demod_ppm_run.
  rewrite (for_pulses_from (train (pre ++ post)) _ _ _ train_prefix_length).
  rewrite (after_pulses_ext _ (ppm_body debug_output (train pre) device)).
  2:{ intros n x Hn. destruct (train_prefix_reads n Hn) as [_ Hg].
      unfold ppm_body. rewrite Hg. reflexivity. }
  set (t0 := trace _).
  apply fold_left_invariant.
  - clearbody t0. intros n x Hx. unfold ppm_body. case_tests; auto with extends.
  - apply extends_refl.
Qed.

Lemma pwm_incremental :
  extends (trace (fst (pulse_demod_pwm_run debug_output (train pre) device)))
          (fst (pulse_demod_pwm_run debug_output (train (pre ++ post)) device)).
Proof.
  unfold pulse_demod_pwm_run.
  rewrite (for_pulses_from (train (pre ++ post)) _ _ _ train_prefix_length).
  rewrite (after_pulses_ext _ (pwm_body debug_output (train pre) device)).
  2:{ intros n x Hn. destruct (train_prefix_reads n Hn) as [Hp Hg].
      unfold pwm_body, pwm_gap, pwm_pulse. rewrite Hp, Hg. reflexivity. }
  set (t0 := trace _).
  apply (fold_left_invariant (fun st => extends t0 (fst st))).
  - clearbody t0. intros n [s d] Hx. simpl in Hx. unfold pwm_body, pwm_gap, pwm_pulse.
    case_tests; cbn [fst]; auto with extends.
  - apply extends_refl.
Qed.

Lemma ternary_incremental :
  extends (trace (pulse_demod_pwm_ternary_run debug_output (train pre) device))
          (pulse_demod_pwm_ternary_run debug_output (train (pre ++ post)) device).
Proof.
  unfold pulse_demod_pwm_ternary_run.
  rewrite (for_pulses_from (train (pre ++ post)) _ _ _ train_prefix_length).
  rewrite (after_pulses_ext _ (ternary_body debug_output (train pre) device)).
  2:{ intros n x Hn. destruct (train_prefix_reads n Hn) as [Hp Hg].
      unfold ternary_body, ternary_gap, ternary_pulse. rewrite Hp, Hg. reflexivity. }
  set (t0 := trace _).
  apply fold_left_invariant.
  - clearbody t0. intros n x Hx. unfold ternary_body, ternary_gap, ternary_pulse.
    case_tests; auto with extends.
  - apply extends_refl.
Qed.

Lemma manchester_incremental :
  extends (trace (fst (pulse_demod_manchester_zerobit_run debug_output (train pre) device)))
          (fst (pulse_demod_manchester_zerobit_run debug_output
                  (train (pre ++ post)) device)).
Proof.
  unfold pulse_demod_manchester_zerobit_run.
  rewrite (for_pulses_from (train (pre ++ post)) _ _ _ train_prefix_length).
  rewrite (after_pulses_ext _ (manchester_body debug_output (train pre) device)).
  2:{ intros n x Hn. destruct (train_prefix_reads n Hn) as [Hp Hg].
      unfold manchester_body, manchester_rising_edge, manchester_falling_edge.
      rewrite Hp, Hg. reflexivity. }
  set (t0 := trace _).
  apply (fold_left_invariant (fun st => extends t0 (fst st))).
  - clearbody t0. intros n [s t] Hx. simpl in Hx.
    unfold manchester_body, manchester_rising_edge, manchester_falling_edge.
    case_tests; cbn [fst]; auto 6 with extends.
  - apply extends_refl.
Qed.

End Incremental.

(** X15.  The PPM, PWM, ternary PWM and Manchester demodulators decode a
    train pulse by pulse: the calls made for a train that goes on after
    [pre] begin with exactly the calls made for [pre] alone, so that later
    pulses never change what was emitted for earlier ones. *)
Theorem decoding_is_incremental
    (debug_output : Z) (device : protocol_state) (pre post : list (Z * Z)) :
  extends (trace (pulse_demod_ppm_run debug_output (train pre) device))
          (pulse_demod_ppm_run debug_output (train (pre ++ post)) device)
  /\ extends (trace (fst (pulse_demod_pwm_run debug_output (train pre) device)))
             (fst (pulse_demod_pwm_run debug_output (train (pre ++ post)) device))
  /\ extends (trace (pulse_demod_pwm_ternary_run debug_output (train pre) device))
             (pulse_demod_pwm_ternary_run debug_output (train (pre ++ post)) device)
  /\ extends (trace (fst (pulse_demod_manchester_zerobit_run debug_output
                            (train pre) device)))
             (fst (pulse_demod_manchester_zerobit_run debug_output
                     (train (pre ++ post)) device)).
Proof.
  split; [apply ppm_incremental|].
  split; [apply pwm_incremental|].
  split; [apply ternary_incremental | apply manchester_incremental].
Qed.
